(** * Wallet ranking pipeline, price-feed normalizer and swap-form helpers

    A shallow embedding of
      - [src/problem3/refactored-code.tsx] ([getPriority], [formattedBalances]),
      - the swap form ([fetchPrices], [calculateExchange]) and
      - the currency input ([handleAmountChange]),
    together with the properties the specification states about them.

    Modelling conventions.
      - A JavaScript [number] is a binary64 float: Rocq's primitive [float].
        Exact values are read off through [Prim2SF].
      - A JavaScript string is a [string], read as UTF-8.
      - An object used as a dictionary is a finite map over its own
        properties; a property read that finds no own property goes on to
        [Object.prototype] ([Object.get]), so that reading ["constructor"]
        or ["toString"] gives the inherited member, not [undefined]. Where
        the enumeration order of an object matters its own properties are
        an association list in creation order.
      - [Array.prototype.sort] is a stable sort (ECMAScript 2019). *)

From Stdlib Require Import ZArith Lia List Bool Ascii String Floats Permutation Sorted.
From stdpp Require Import base strings gmap.
Import ListNotations.

Local Open Scope string_scope.
Local Open Scope list_scope.
Local Open Scope Z_scope.

(** ** JavaScript numbers *)

Module Number.

(** A number is a binary64 float. *)
Abbreviation number := float.

(** [a > b] on numbers: false as soon as one side is NaN. *)
Definition gt (a b : number) : bool := PrimFloat.ltb b a.

(** [a <= b] on numbers. *)
Definition le (a b : number) : bool := PrimFloat.leb a b.

(** The global [isNaN] on a number. *)
Definition isNaN (x : number) : bool := PrimFloat.is_nan x.

(** ToBoolean on a number: [0], [-0] and [NaN] are falsy. *)
Definition truthy (x : number) : bool :=
  negb (PrimFloat.is_zero x || PrimFloat.is_nan x).

(** *** Decimal digits *)

Definition digit_char (d : Z) : ascii :=
  match d with
  | 0 => "0" | 1 => "1" | 2 => "2" | 3 => "3" | 4 => "4"
  | 5 => "5" | 6 => "6" | 7 => "7" | 8 => "8" | _ => "9"
  end%char.

Definition is_digit (c : ascii) : bool :=
  (48 <=? Z.of_nat (nat_of_ascii c)) && (Z.of_nat (nat_of_ascii c) <=? 57).

Definition digit_value (c : ascii) : Z := Z.of_nat (nat_of_ascii c) - 48.

Fixpoint digits_acc (fuel : nat) (n : Z) (acc : string) : string :=
  match fuel with
  | O => acc
  | S fuel' =>
      let acc' := String (digit_char (n mod 10)) acc in
      if n / 10 =? 0 then acc' else digits_acc fuel' (n / 10) acc'
  end.

(** The decimal representation of a natural number, without leading
    zeros ([n] has at most [log2 n + 1] decimal digits). *)
Definition decimal (n : Z) : string :=
  digits_acc (S (Z.to_nat (Z.log2 n))) n "".

(** The last [f] decimal digits of [n]. *)
Fixpoint frac_digits (f : nat) (n : Z) : string :=
  match f with
  | O => ""
  | S f' => frac_digits f' (n / 10) +:+ String (digit_char (n mod 10)) ""
  end.

Fixpoint zeros (n : nat) : string :=
  match n with
  | O => ""
  | S n' => String "0" (zeros n')
  end.

(** *** From a decimal to the nearest number (ties to even) *)

Definition of_decimal (neg : bool) (m : Z) (e10 : Z) : number :=
  match m with
  | Z0 => if neg then neg_zero else zero
  | Zpos p =>
      SF2Prim
        (if 0 <=? e10
         then binary_normalize prec emax
                (if neg then - (m * 10 ^ e10) else m * 10 ^ e10) 0 false
         else SFdiv prec emax (S754_finite neg p 0)
                (S754_finite false (Z.to_pos (10 ^ (- e10))) 0))
  | Zneg _ => nan
  end.

(** *** Number::toString, radix 10

    A positive finite number is [m * 2^e]; [numerator / denominator] is
    that value as a fraction. *)

Definition numerator (m : positive) (e : Z) : Z :=
  if 0 <=? e then Z.pos m * 2 ^ e else Z.pos m.

Definition denominator (e : Z) : Z := if 0 <=? e then 1 else 2 ^ (- e).

(** [floor (m * 2^e / 10^p)] *)
Definition scaled_floor (m : positive) (e p : Z) : Z :=
  if 0 <=? p then numerator m e / (denominator e * 10 ^ p)
  else (numerator m e * 10 ^ (- p)) / denominator e.

Fixpoint magnitude_from (fuel : nat) (m : positive) (e n : Z) : Z :=
  match fuel with
  | O => n
  | S fuel' =>
      if 1 <=? scaled_floor m e (n - 1) then n
      else magnitude_from fuel' m e (n - 1)
  end.

(** The [n] with [10^(n-1) <= m * 2^e < 10^n], searched downwards from an
    upper estimate read off the binary exponent. *)
Definition magnitude (m : positive) (e : Z) : Z :=
  magnitude_from 4 m e ((Z.log2 (Z.pos m) + e + 1) * 30103 / 100000 + 2).

Definition roundtrips (x : number) (s p : Z) : bool :=
  PrimFloat.eqb (of_decimal false s p) x.

(** Is [lo * 10^p] at least as close to [m * 2^e] as [(lo + 1) * 10^p]
    (the even one when they are equally close)? *)
Definition lo_closer (m : positive) (e lo p : Z) : bool :=
  let l := if 0 <=? p then 2 * numerator m e
           else 2 * numerator m e * 10 ^ (- p) in
  let r := if 0 <=? p then (2 * lo + 1) * 10 ^ p * denominator e
           else (2 * lo + 1) * denominator e in
  (l <? r) || ((l =? r) && Z.even lo).

(** The shortest digit string [s] (with its [n]) such that [s * 10^(n-k)]
    rounds to [x], trying [k = 1, 2, ...] digits. *)
Fixpoint shortest (fuel : nat) (x : number) (m : positive) (e n k : Z) : Z * Z :=
  let p := n - k in
  let lo := scaled_floor m e p in
  let hi := lo + 1 in
  let pick (s : Z) := if s =? 10 ^ k then (10 ^ (k - 1), n + 1) else (s, n) in
  match fuel with
  | O => (lo, n)
  | S fuel' =>
      match roundtrips x lo p, roundtrips x hi p with
      | true, true => if lo_closer m e lo p then (lo, n) else pick hi
      | true, false => (lo, n)
      | false, true => pick hi
      | false, false => shortest fuel' x m e n (k + 1)
      end
  end.

Definition toString_positive (x : number) (m : positive) (e : Z) : string :=
  let '(s, n) := shortest 17 x m e (magnitude m e) 1 in
  let ds := decimal s in
  let k := Z.of_nat (String.length ds) in
  if (k <=? n) && (n <=? 21) then ds +:+ zeros (Z.to_nat (n - k))
  else if (0 <? n) && (n <=? 21) then
    substring 0 (Z.to_nat n) ds +:+ "."
      +:+ substring (Z.to_nat n) (Z.to_nat (k - n)) ds
  else if (-6 <? n) && (n <=? 0) then "0." +:+ zeros (Z.to_nat (- n)) +:+ ds
  else
    let ex := (if 0 <=? n - 1 then "+" else "-") +:+ decimal (Z.abs (n - 1)) in
    if k =? 1 then ds +:+ "e" +:+ ex
    else substring 0 1 ds +:+ "."
           +:+ substring 1 (Z.to_nat (k - 1)) ds +:+ "e" +:+ ex.

Definition toString (x : number) : string :=
  match Prim2SF x with
  | S754_nan => "NaN"
  | S754_zero _ => "0"
  | S754_infinity s => if s then "-Infinity" else "Infinity"
  | S754_finite s m e =>
      (if s then "-" else "") +:+ toString_positive (PrimFloat.abs x) m e
  end.

(** *** Number.prototype.toFixed *)

(** The integer [n] for which [n / 10^f - m * 2^e] is as close to zero as
    possible, the larger [n] when there are two. *)
Definition round_scaled (m : positive) (e : Z) (f : nat) : Z :=
  let s := Z.pos m * 10 ^ Z.of_nat f in
  if 0 <=? e then s * 2 ^ e
  else (2 * s + 2 ^ (- e)) / (2 * 2 ^ (- e)).

(** The digits of [n] with a point in front of the last [f] of them. *)
Definition fixed_point (n : Z) (f : nat) : string :=
  match f with
  | O => decimal n
  | _ => decimal (n / 10 ^ Z.of_nat f) +:+ "." +:+ frac_digits f n
  end.

Definition toFixed (x : number) (f : nat) : string :=
  match Prim2SF x with
  | S754_nan => "NaN"
  | S754_infinity s => if s then "-Infinity" else "Infinity"
  | S754_zero _ => fixed_point 0 f
  | S754_finite s m e =>
      (if s then "-" else "")
        +:+ (if PrimFloat.leb 1e21%float (PrimFloat.abs x)
            then toString (PrimFloat.abs x)
            else fixed_point (round_scaled m e f) f)
  end.

(** *** parseFloat

    The longest prefix of the trimmed input that is a StrDecimalLiteral,
    rounded to the nearest number; NaN when there is none. *)

(** The white space of the ASCII range: TAB, LF, VT, FF, CR and SP. *)
Definition is_space (c : ascii) : bool :=
  let n := nat_of_ascii c in
  ((9 <=? n) && (n <=? 13))%nat || (n =? 32)%nat.

(** The white space and line terminators beyond ASCII, by the second and
    third byte of their three-byte encodings: U+1680, U+2000 to U+200A,
    U+2028, U+2029, U+202F, U+205F, U+3000 and U+FEFF. *)
Definition is_space3 (c0 c1 c2 : ascii) : bool :=
  let a := nat_of_ascii c0 in
  let b := nat_of_ascii c1 in
  let c := nat_of_ascii c2 in
  ((a =? 225) && (b =? 154) && (c =? 128)
   || (a =? 226) && (b =? 128)
      && ((128 <=? c) && (c <=? 138) || (c =? 168) || (c =? 169) || (c =? 175))
   || (a =? 226) && (b =? 129) && (c =? 159)
   || (a =? 227) && (b =? 128) && (c =? 128)
   || (a =? 239) && (b =? 187) && (c =? 191))%nat.

(** Drops the leading white space and line terminators; U+00A0 is the two
    bytes 194, 160. *)
Fixpoint trim_start (s : string) : string :=
  match s with
  | String c r =>
      if is_space c then trim_start r
      else
        match r with
        | String c1 r1 =>
            if ((nat_of_ascii c =? 194) && (nat_of_ascii c1 =? 160))%nat
            then trim_start r1
            else
              match r1 with
              | String c2 r2 => if is_space3 c c1 c2 then trim_start r2 else s
              | EmptyString => s
              end
        | EmptyString => s
        end
  | EmptyString => s
  end.

(** Reads a run of digits: the value read (continuing [acc]), how many
    digits there were, and what follows them. *)
Fixpoint take_digits (s : string) (acc : Z) (count : Z) : Z * Z * string :=
  match s with
  | String c r =>
      if is_digit c then take_digits r (10 * acc + digit_value c) (count + 1)
      else (acc, count, s)
  | EmptyString => (acc, count, s)
  end.

(** The value of an ExponentPart at the head of [s], [0] when there is
    none. *)
Definition exponent_part (s : string) : Z :=
  match s with
  | String c r =>
      if (Ascii.eqb c "e" || Ascii.eqb c "E")%char then
        let '(neg, r') :=
          match r with
          | String "-" r' => (true, r')
          | String "+" r' => (false, r')
          | _ => (false, r)
          end in
        let '(v, count, _) := take_digits r' 0 0 in
        if 0 <? count then (if neg then - v else v) else 0
      else 0
  | EmptyString => 0
  end.

Definition parseFloat (input : string) : number :=
  let s := trim_start input in
  let '(neg, s) :=
    match s with
    | String "-" r => (true, r)
    | String "+" r => (false, r)
    | _ => (false, s)
    end in
  if String.prefix "Infinity" s then (if neg then neg_infinity else infinity)
  else
    let '(i, ni, s1) := take_digits s 0 0 in
    let '(m, nf, s2) :=
      match s1 with
      | String "." r => take_digits r i 0
      | _ => (i, 0, s1)
      end in
    if 0 <? ni + nf then of_decimal neg m (exponent_part s2 - nf) else nan.

End Number.

(** ** Property reads on ordinary objects *)

Module Object.

(** The names under which [Object.prototype] has a member; an object
    literal inherits every one of them. *)
Definition prototype : list string :=
  ["constructor"; "hasOwnProperty"; "isPrototypeOf"; "propertyIsEnumerable";
   "toLocaleString"; "toString"; "valueOf"; "__proto__";
   "__defineGetter__"; "__defineSetter__"; "__lookupGetter__"; "__lookupSetter__"].

Definition inherited (key : string) : bool :=
  existsb (String.eqb key) prototype.

(** What a property read gives when it is not [undefined]: a value of the
    data, or the member of [Object.prototype] of that name. Such a member
    is a function (under ["__proto__"], the prototype object itself): it is
    truthy, it is not nullish, it converts to the number NaN, and it has
    none of the data's properties. *)
Inductive Value (A : Type) : Type :=
| Data (a : A)
| Member (name : string).
Arguments Data {A} a.
Arguments Member {A} name.

(** [object[key]] for an object whose own property of that name, if any, is
    [own]; [None] is [undefined]. *)
Definition get {A : Type} (own : option A) (key : string) : option (Value A) :=
  match own with
  | Some a => Some (Data a)
  | None => if inherited key then Some (Member key) else None
  end.

(** ToNumber. *)
Definition toNumber (v : Value Number.number) : Number.number :=
  match v with
  | Data x => x
  | Member _ => nan
  end.

(** [v > n] where a number is expected: false for a member, which
    converts to NaN. *)
Definition gt (v : Value Z) (n : Z) : bool :=
  match v with
  | Data x => n <? x
  | Member _ => false
  end.

(** [v - w] where numbers are expected; [None] is NaN. *)
Definition minus (v w : Value Z) : option Z :=
  match v, w with
  | Data x, Data y => Some (x - y)
  | _, _ => None
  end.

(** [v === n] for a number [n]. *)
Definition equals (v : Value Z) (n : Z) : bool :=
  match v with
  | Data x => x =? n
  | Member _ => false
  end.

End Object.

(** ** Array.prototype.sort *)

Section ArraySort.
Context {A : Type}.
Variable compareFn : A -> A -> Z.

(** [x] goes in front of the first element it does not compare greater
    than, so elements the comparator equates keep their input order. *)
Fixpoint sort_insert (x : A) (l : list A) : list A :=
  match l with
  | [] => [x]
  | y :: l' => if compareFn x y <=? 0 then x :: y :: l' else y :: sort_insert x l'
  end.

Fixpoint Array_sort (l : list A) : list A :=
  match l with
  | [] => []
  | x :: l' => sort_insert x (Array_sort l')
  end.

(** [a] may stand in front of [b]. *)
Definition before (a b : A) : Prop := compareFn a b <= 0.
End ArraySort.

(** ** The wallet page (src/problem3/refactored-code.tsx) *)

Module Wallet.

Record WalletBalance := mkBalance {
  currency : string;
  amount : Number.number;
  blockchain : string
}.

(** A balance with the [priority] the first [map] attaches: what
    [getPriority] returned, a number or an inherited member. *)
Record RankedBalance := mkRanked {
  balance : WalletBalance;
  priority : Object.Value Z
}.

(** A ranked balance with what the last [map] attaches. *)
Record FormattedWalletBalance := mkFormatted {
  ranked : RankedBalance;
  formatted : string;
  usdValue : Number.number
}.

(** The members of [enum Blockchain]. *)
Definition Osmosis := "Osmosis".
Definition Ethereum := "Ethereum".
Definition Arbitrum := "Arbitrum".
Definition Zilliqa := "Zilliqa".
Definition Neo := "Neo".

(** The own properties of the object literal [BLOCKCHAIN_PRIORITIES]. *)
Definition BLOCKCHAIN_PRIORITIES : gmap string Z :=
  <[Osmosis := 100]> (<[Ethereum := 50]> (<[Arbitrum := 30]>
    (<[Zilliqa := 20]> (<[Neo := 20]> ∅)))).

(** [BLOCKCHAIN_PRIORITIES[blockchain] ?? -99]: the default replaces
    [undefined] only. *)
Definition getPriority (blockchain : string) : Object.Value Z :=
  default (Object.Data (-99))
    (Object.get (BLOCKCHAIN_PRIORITIES !! blockchain) blockchain).

(** [{ ...balance, priority: getPriority(balance.blockchain) }] *)
Definition rank (b : WalletBalance) : RankedBalance :=
  mkRanked b (getPriority (blockchain b)).

(** [balance.priority > -99 && balance.amount > 0] *)
Definition keep (r : RankedBalance) : bool :=
  Object.gt (priority r) (-99) && Number.gt (amount (balance r)) 0%float.

(** [(a, b) => b.priority - a.priority]; the sort takes a result of NaN
    as [+0]. *)
Definition byPriority (a b : RankedBalance) : Z :=
  default 0 (Object.minus (priority b) (priority a)).

(** [{ ...balance, formatted: ..., usdValue: ... }]; [prices] holds the own
    properties of the object [usePrices] returns, an ordinary object: the
    default replaces [undefined] only, and what is read is converted to a
    number by the multiplication. *)
Definition format (prices : gmap string Number.number) (r : RankedBalance)
  : FormattedWalletBalance :=
  mkFormatted r
    (Number.toFixed (amount (balance r)) 8)
    (PrimFloat.mul
       (Object.toNumber
          (default (Object.Data 0%float)
             (Object.get (prices !! currency (balance r)) (currency (balance r)))))
       (amount (balance r))).

(** The stages of [formattedBalances], one after the other. *)
Definition surviving (balances : list WalletBalance) : list RankedBalance :=
  List.filter keep (map rank balances).

Definition sorted (balances : list WalletBalance) : list RankedBalance :=
  Array_sort byPriority (surviving balances).

Definition formattedBalances (balances : list WalletBalance)
    (prices : gmap string Number.number) : list FormattedWalletBalance :=
  map (format prices) (sorted balances).

End Wallet.

(** ** The swap form ([fetchPrices], [calculateExchange]) *)

Module SwapForm.

(** An entry of the price feed. [price] is the feed's numeric string and
    [date] the time value of [new Date(item.date)], [None] for an Invalid
    Date (whose time value is NaN). *)
Record Item := mkItem {
  currency : string;
  price : string;
  date : option Z
}.

Record Token := mkToken {
  token_currency : string;
  token_price : Number.number
}.

(** [new Date(a) > new Date(b)]: a comparison of time values, false when
    either is NaN. *)
Definition later (a b : option Z) : bool :=
  match a, b with
  | Some x, Some y => y <? x
  | _, _ => false
  end.

(** [item.price && parseFloat(item.price) > 0] *)
Definition usable (item : Item) : bool :=
  negb (String.eqb (price item) "")
  && Number.gt (Number.parseFloat (price item)) 0%float.

(** [priceMap]: the object's own properties in creation order. It starts
    as [{}], so what it has no own property for it reads from
    [Object.prototype]. *)
Definition PriceMap := list (string * Item).

(** The own property under [key]. *)
Fixpoint get (key : string) (priceMap : PriceMap) : option Item :=
  match priceMap with
  | [] => None
  | (k, v) :: rest => if String.eqb k key then Some v else get key rest
  end.

(** [priceMap[key] = item] as a write of an own property: an existing
    property keeps its place, a new one goes last. ([record] writes under
    no name that [priceMap] inherits and does not own, see there; such a
    write would shadow the member, or under ["__proto__"] replace the
    prototype.) *)
Fixpoint set (key : string) (item : Item) (priceMap : PriceMap) : PriceMap :=
  match priceMap with
  | [] => [(key, item)]
  | (k, v) :: rest =>
      if String.eqb k key then (k, item) :: rest
      else (k, v) :: set key item rest
  end.

(** The time value of [new Date(priceMap[key].date)] for what
    [priceMap[key]] gave: a member of [Object.prototype] has no [date], and
    [new Date(undefined)] is an Invalid Date. *)
Definition stored_date (v : Object.Value Item) : option Z :=
  match v with
  | Object.Data stored => date stored
  | Object.Member _ => None
  end.

(** The body of [data.forEach]: the item is written when [priceMap[key]]
    is [undefined] (whatever else it gives is an object, which is truthy)
    or older than the item. *)
Definition record (priceMap : PriceMap) (item : Item) : PriceMap :=
  if usable item then
    let key := currency item in
    match Object.get (get key priceMap) key with
    | None => set key item priceMap
    | Some v =>
        if later (date item) (stored_date v) then set key item priceMap
        else priceMap
    end
  else priceMap.

Definition collect (data : list Item) : PriceMap :=
  fold_left record data [].

(** An array index: a canonical numeric string below [2^32 - 1]. *)
Definition array_index (key : string) : option Z :=
  let '(v, count, rest) := Number.take_digits key 0 0 in
  if String.eqb rest "" && String.eqb (Number.decimal v) key
     && (0 <? count) && (v <? 2 ^ 32 - 1)
  then Some v else None.

Definition byIndex (a b : string * Item) : Z :=
  default 0 (array_index (fst a)) - default 0 (array_index (fst b)).

(** [Object.values]: array indices in ascending order first, then the
    other keys in creation order. *)
Definition Object_values (priceMap : PriceMap) : list Item :=
  let indexed (kv : string * Item) := bool_decide (is_Some (array_index (fst kv))) in
  map snd
    (Array_sort byIndex (List.filter indexed priceMap)
     ++ List.filter (fun kv => negb (indexed kv)) priceMap).

(** [{ currency: item.currency, price: parseFloat(item.price) }] *)
Definition withPrice (item : Item) : Token :=
  mkToken (currency item) (Number.parseFloat (price item)).

Section FetchPrices.
(** [String.prototype.localeCompare] depends on the host's locale: it is a
    parameter here. *)
Variable localeCompare : string -> string -> Z.

Definition byCurrency (a b : Token) : Z :=
  localeCompare (token_currency a) (token_currency b).

(** The value [fetchPrices] hands to [setTokens]. *)
Definition fetchPrices (data : list Item) : list Token :=
  Array_sort byCurrency (map withPrice (Object_values (collect data))).
End FetchPrices.

(** [calculateExchange(amount, from, to)]; [None] is a token that is
    [null]. *)
Definition calculateExchange (amount : string) (from to : option Token) : string :=
  match from, to with
  | Some f, Some t =>
      if String.eqb amount ""
         || negb (Number.truthy (token_price f))
         || negb (Number.truthy (token_price t))
      then ""
      else
        let numAmount := Number.parseFloat amount in
        if Number.isNaN numAmount || Number.le numAmount 0%float then ""
        else
          let fromValue := PrimFloat.mul numAmount (token_price f) in
          let toValue := PrimFloat.div fromValue (token_price t) in
          Number.toFixed toValue 6
  | _, _ => ""
  end.

(** The component's state. *)
Record State := mkState {
  fromToken : option Token;
  toToken : option Token;
  fromAmount : string;
  toAmount : string;
  error : string
}.

Definition handleFromAmountChange (value : string) (st : State) : State :=
  mkState (fromToken st) (toToken st) value
    (if negb (String.eqb value "")
        && bool_decide (is_Some (fromToken st))
        && bool_decide (is_Some (toToken st))
     then calculateExchange value (fromToken st) (toToken st)
     else "")
    "".


End SwapForm.

(** ** The currency input ([handleAmountChange]) *)

Module CurrencyInput.

(** Regular expressions over characters, matched against a whole string
    (the pattern is anchored by [^] and [$]). *)
Inductive regex :=
  | Never
  | Empty
  | Class (p : ascii -> bool)
  | Seq (r1 r2 : regex)
  | Alt (r1 r2 : regex)
  | Star (r : regex).

Fixpoint nullable (r : regex) : bool :=
  match r with
  | Never => false
  | Empty => true
  | Class _ => false
  | Seq r1 r2 => nullable r1 && nullable r2
  | Alt r1 r2 => nullable r1 || nullable r2
  | Star _ => true
  end.

(** What is left of [r] after reading [c]. *)
Fixpoint after (c : ascii) (r : regex) : regex :=
  match r with
  | Never => Never
  | Empty => Never
  | Class p => if p c then Empty else Never
  | Seq r1 r2 =>
      if nullable r1 then Alt (Seq (after c r1) r2) (after c r2)
      else Seq (after c r1) r2
  | Alt r1 r2 => Alt (after c r1) (after c r2)
  | Star r1 => Seq (after c r1) (Star r1)
  end.

(** [r.test(s)] for an anchored [r]. *)
Fixpoint test (r : regex) (s : string) : bool :=
  match s with
  | EmptyString => nullable r
  | String c s' => test (after c r) s'
  end.

Definition optional (r : regex) : regex := Alt r Empty.

(** [/^\d*\.?\d*$/] *)
Definition amountPattern : regex :=
  Seq (Star (Class Number.is_digit))
      (Seq (optional (Class (Ascii.eqb "."))) (Star (Class Number.is_digit))).

Section Handler.
(** The parent's state and the [onAmountChange] callback it passes. *)
Variable ParentState : Type.
Variable onAmountChange : string -> ParentState -> ParentState.

(** [value] is [e.target.value]. *)
Definition handleAmountChange (value : string) (st : ParentState) : ParentState :=
  if String.eqb value "" || test amountPattern value
  then onAmountChange value st
  else st.
End Handler.

End CurrencyInput.

(** ** Vocabulary of the specification *)

(** A run of decimal digits. *)
Fixpoint digits_only (s : string) : bool :=
  match s with
  | EmptyString => true
  | String c s' => Number.is_digit c && digits_only s'
  end.

(** A string of decimal digits, a point, and exactly [f] more digits. *)
Definition fixed_notation (f : nat) (s : string) : Prop :=
  exists i d : string,
    s = i +:+ "." +:+ d /\ i <> "" /\ digits_only i = true /\
    String.length d = f /\ digits_only d = true.

(** The strings a regular expression denotes. *)
Inductive matches : CurrencyInput.regex -> string -> Prop :=
| matches_Empty : matches CurrencyInput.Empty ""
| matches_Class p c : p c = true -> matches (CurrencyInput.Class p) (String c "")
| matches_Seq r1 r2 s1 s2 :
    matches r1 s1 -> matches r2 s2 -> matches (CurrencyInput.Seq r1 r2) (s1 +:+ s2)
| matches_Alt_l r1 r2 s : matches r1 s -> matches (CurrencyInput.Alt r1 r2) s
| matches_Alt_r r1 r2 s : matches r2 s -> matches (CurrencyInput.Alt r1 r2) s
| matches_Star_nil r : matches (CurrencyInput.Star r) ""
| matches_Star_app r s1 s2 :
    matches r s1 -> matches (CurrencyInput.Star r) s2 ->
    matches (CurrencyInput.Star r) (s1 +:+ s2).

(** What the specification accepts: an optional run of digits, an optional
    single decimal point, an optional run of digits. *)
Definition amount_syntax (s : string) : Prop :=
  exists a b : string,
    digits_only a = true /\ digits_only b = true /\
    (s = a +:+ b \/ s = a +:+ "." +:+ b).

(** The own property [priceMap] has under [key] once [data] has been read:
    none when no usable item has that currency, or when [key] names a
    member of [Object.prototype]; otherwise a usable item [v] of that
    currency such that no usable item of the currency is later than [v],
    and none in front of [v] carries [v]'s date. *)
Definition held (data : list SwapForm.Item) (key : string)
    (entry : option SwapForm.Item) : Prop :=
  match entry with
  | None =>
      forall o, In o data -> SwapForm.usable o = true -> SwapForm.currency o = key ->
                Object.inherited key = true
  | Some v =>
      SwapForm.usable v = true /\ SwapForm.currency v = key /\
      exists l1 l2 : list SwapForm.Item,
        data = l1 ++ v :: l2 /\
        (forall o, In o l1 -> SwapForm.usable o = true -> SwapForm.currency o = key ->
                   SwapForm.later (SwapForm.date o) (SwapForm.date v) = false /\
                   SwapForm.date o <> SwapForm.date v) /\
        (forall o, In o l2 -> SwapForm.usable o = true -> SwapForm.currency o = key ->
                   SwapForm.later (SwapForm.date o) (SwapForm.date v) = false)
  end.

(** The items [priceMap] ends up holding. *)
Definition canonical (data : list SwapForm.Item) (v : SwapForm.Item) : Prop :=
  SwapForm.get (SwapForm.currency v) (SwapForm.collect data) = Some v.

(** [o] is the first usable observation of the symbol [key] in [data]. *)
Definition first_usable (data : list SwapForm.Item) (key : string)
    (o : SwapForm.Item) : Prop :=
  exists l1 l2 : list SwapForm.Item,
    data = l1 ++ o :: l2 /\
    SwapForm.usable o = true /\ SwapForm.currency o = key /\
    forall o', In o' l1 -> SwapForm.usable o' = true -> SwapForm.currency o' <> key.

(** The symbols of a feed. *)
Definition symbols (data : list SwapForm.Item) : list string :=
  map SwapForm.currency data.

(** Two usable observations of one symbol of which neither is later than the
    other (they share a timestamp, or a date is invalid) carry the same
    price. *)
Definition ties_agree (data : list SwapForm.Item) : Prop :=
  forall a b : SwapForm.Item,
    In a data -> In b data ->
    SwapForm.usable a = true -> SwapForm.usable b = true ->
    SwapForm.currency a = SwapForm.currency b ->
    SwapForm.later (SwapForm.date a) (SwapForm.date b) = false ->
    SwapForm.later (SwapForm.date b) (SwapForm.date a) = false ->
    Number.parseFloat (SwapForm.price a) = Number.parseFloat (SwapForm.price b).

(** ** The rest of the swap form *)

Module SwapFormView.

(** The component's state: the form (tokens selected, amounts, error) and
    the rest of its [useState] cells. *)
Record Component := mkComponent {
  tokens : list SwapForm.Token;
  loading : bool;
  form : SwapForm.State;
  swapAnimation : bool
}.

(** What [fetch] and [response.json()] come to: the feed, or a failure that
    the [catch] receives. *)
Inductive Response :=
| Prices (data : list SwapForm.Item)
| Failure.

(** [tokensWithPrices.find((t) => t.currency === currency)] *)
Definition findCurrency (currency : string) (tokensWithPrices : list SwapForm.Token)
  : option SwapForm.Token :=
  List.find (fun t => String.eqb (SwapForm.token_currency t) currency) tokensWithPrices.

(** [a || b] on a token that may be [undefined]. *)
Definition orElse (a b : option SwapForm.Token) : option SwapForm.Token :=
  match a with
  | Some t => Some t
  | None => b
  end.

Section Load.
Variable localeCompare : string -> string -> Z.

(** The state once [fetchPrices] has run to its end. *)
Definition fetched (response : Response) (c : Component) : Component :=
  match response with
  | Prices data =>
      let tokensWithPrices := SwapForm.fetchPrices localeCompare data in
      let st := form c in
      mkComponent tokensWithPrices false
        (if (2 <=? length tokensWithPrices)%nat
         then SwapForm.mkState
                (orElse (findCurrency "USDC" tokensWithPrices)
                        (nth_error tokensWithPrices 0))
                (orElse (findCurrency "SWTH" tokensWithPrices)
                        (nth_error tokensWithPrices 1))
                (SwapForm.fromAmount st) (SwapForm.toAmount st) (SwapForm.error st)
         else st)
        (swapAnimation c)
  | Failure =>
      let st := form c in
      mkComponent (tokens c) false
        (SwapForm.mkState (SwapForm.fromToken st) (SwapForm.toToken st)
           (SwapForm.fromAmount st) (SwapForm.toAmount st)
           "Failed to load token prices. Please try again later.")
        (swapAnimation c)
  end.
End Load.

(** [handleSwapTokens], up to the timer: [setSwapAnimation(true)]. *)
Definition handleSwapTokens_start (c : Component) : Component :=
  mkComponent (tokens c) (loading c) (form c) true.

(** The timer's callback. It writes the tokens and amounts it [captured]
    when [handleSwapTokens] was called. *)
Definition handleSwapTokens_timeout (captured : SwapForm.State) (c : Component)
  : Component :=
  mkComponent (tokens c) (loading c)
    (SwapForm.mkState (SwapForm.toToken captured) (SwapForm.fromToken captured)
       (SwapForm.toAmount captured) (SwapForm.fromAmount captured)
       (SwapForm.error (form c)))
    false.

(** [handleSwapTokens] and its timer with nothing in between. *)
Definition handleSwapTokens (c : Component) : Component :=
  handleSwapTokens_timeout (form c) (handleSwapTokens_start c).

(** [token.currency === other?.currency] *)
Definition sameCurrency (token : SwapForm.Token) (other : option SwapForm.Token) : bool :=
  match other with
  | Some t => String.eqb (SwapForm.token_currency token) (SwapForm.token_currency t)
  | None => false
  end.

Definition handleFromTokenChange (token : SwapForm.Token) (st : SwapForm.State)
  : SwapForm.State :=
  SwapForm.mkState
    (Some token)
    (if sameCurrency token (SwapForm.toToken st)
     then SwapForm.fromToken st else SwapForm.toToken st)
    (SwapForm.fromAmount st)
    (if negb (String.eqb (SwapForm.fromAmount st) "")
     then SwapForm.calculateExchange (SwapForm.fromAmount st)
            (Some token) (SwapForm.toToken st)
     else SwapForm.toAmount st)
    (SwapForm.error st).

Definition handleToTokenChange (token : SwapForm.Token) (st : SwapForm.State)
  : SwapForm.State :=
  SwapForm.mkState
    (if sameCurrency token (SwapForm.fromToken st)
     then SwapForm.toToken st else SwapForm.fromToken st)
    (Some token)
    (SwapForm.fromAmount st)
    (if negb (String.eqb (SwapForm.fromAmount st) "")
     then SwapForm.calculateExchange (SwapForm.fromAmount st)
            (SwapForm.fromToken st) (Some token)
     else SwapForm.toAmount st)
    (SwapForm.error st).

(** [handleSwap]: the state it leaves and the message it [alert]s, if any. *)
Definition handleSwap (st : SwapForm.State) : SwapForm.State * option string :=
  if String.eqb (SwapForm.fromAmount st) ""
     || Number.le (Number.parseFloat (SwapForm.fromAmount st)) 0%float
  then (SwapForm.mkState (SwapForm.fromToken st) (SwapForm.toToken st)
          (SwapForm.fromAmount st) (SwapForm.toAmount st)
          "Please enter a valid amount", None)
  else
    match SwapForm.fromToken st, SwapForm.toToken st with
    | Some f, Some t =>
        (SwapForm.mkState (SwapForm.fromToken st) (SwapForm.toToken st) "" "" "",
         Some ("Swap successful! " +:+ SwapForm.fromAmount st +:+ " "
               +:+ SwapForm.token_currency f +:+ " → "
               +:+ SwapForm.toAmount st +:+ " " +:+ SwapForm.token_currency t))
    | _, _ =>
        (SwapForm.mkState (SwapForm.fromToken st) (SwapForm.toToken st)
           (SwapForm.fromAmount st) (SwapForm.toAmount st)
           "Please select both tokens", None)
    end.

(** The Swap button's [disabled]. *)
Definition swapDisabled (c : Component) : bool :=
  String.eqb (SwapForm.fromAmount (form c)) ""
  || String.eqb (SwapForm.toAmount (form c)) ""
  || loading c.

End SwapFormView.

(** ** The token dropdown of the currency input *)

Module TokenDropdown.

(** [s.includes(q)] *)
Fixpoint includes (s q : string) : bool :=
  String.prefix q s
  || match s with
     | EmptyString => false
     | String _ s' => includes s' q
     end.

(** The component's own state. *)
Record Dropdown := mkDropdown {
  isOpen : bool;
  searchQuery : string
}.

Section Search.
(** [String.prototype.toLowerCase] follows the Unicode case mappings: it is
    a parameter here. *)
Variable toLowerCase : string -> string.

Definition filteredTokens (tokens : list SwapForm.Token) (d : Dropdown)
  : list SwapForm.Token :=
  List.filter
    (fun token =>
       includes (toLowerCase (SwapForm.token_currency token))
                (toLowerCase (searchQuery d)))
    tokens.
End Search.

Section Select.
Variable ParentState : Type.
Variable onTokenChange : SwapForm.Token -> ParentState -> ParentState.

Definition handleTokenSelect (token : SwapForm.Token) (st : ParentState * Dropdown)
  : ParentState * Dropdown :=
  (onTokenChange token (fst st), mkDropdown false "").
End Select.

End TokenDropdown.

(** ** The rows of the wallet page *)

Module WalletRows.

(** The props of a [WalletRow] that come from the balance, with its [key]. *)
Record Row := mkRow {
  key : string;
  amount : Number.number;
  usdValue : Number.number;
  formattedAmount : string
}.

Definition row (b : Wallet.FormattedWalletBalance) : Row :=
  mkRow
    (Wallet.blockchain (Wallet.balance (Wallet.ranked b)) +:+ "-"
     +:+ Wallet.currency (Wallet.balance (Wallet.ranked b)))
    (Wallet.amount (Wallet.balance (Wallet.ranked b)))
    (Wallet.usdValue b)
    (Wallet.formatted b).

Definition rows (balances : list Wallet.WalletBalance)
    (prices : gmap string Number.number) : list Row :=
  map row (Wallet.formattedBalances balances prices).

End WalletRows.

(** ** Vocabulary of the further properties *)

(** The two sides of the form are not on the same currency. *)
Definition distinct_sides (st : SwapForm.State) : Prop :=
  forall f t, SwapForm.fromToken st = Some f -> SwapForm.toToken st = Some t ->
              SwapForm.token_currency f <> SwapForm.token_currency t.

(** The To amount is the conversion of the From amount. *)
Definition converted (st : SwapForm.State) : Prop :=
  SwapForm.toAmount st
  = SwapForm.calculateExchange (SwapForm.fromAmount st)
      (SwapForm.fromToken st) (SwapForm.toToken st).

(** [q] occurs in [s]. *)
Definition occurs (q s : string) : Prop := exists a b : string, s = a +:+ q +:+ b.

(** 0, a positive finite number, +Infinity or NaN. *)
Definition unsigned_sf (x : spec_float) : Prop :=
  match x with
  | S754_zero s | S754_infinity s | S754_finite s _ _ => s = false
  | S754_nan => True
  end.

(** * Properties *)

(** ** Array.prototype.sort: a stable sort *)

Section ArraySortFacts.
Context {A : Type}.
Variable compareFn : A -> A -> Z.

Lemma sort_insert_perm (x : A) (l : list A) :
  Permutation (sort_insert compareFn x l) (x :: l).
Proof.
  induction l as [|y l IH]; simpl.
  - reflexivity.
  - destruct (compareFn x y <=? 0).
    + reflexivity.
    + rewrite IH. apply perm_swap.
Qed.

Lemma Array_sort_perm (l : list A) : Permutation (Array_sort compareFn l) l.
Proof.
  induction l as [|x l IH]; simpl.
  - reflexivity.
  - rewrite sort_insert_perm. now constructor.
Qed.

Lemma Array_sort_In (l : list A) (x : A) : In x (Array_sort compareFn l) <-> In x l.
Proof.
  split; apply Permutation_in; [|symmetry]; apply Array_sort_perm.
Qed.

(** Elements that the comparator puts in front of each other keep their
    input order: selecting such a class commutes with sorting. *)
Lemma sort_insert_filter (P : A -> bool) (x : A) (l : list A) :
  (forall a b, P a = true -> P b = true -> compareFn a b <= 0) ->
  List.filter P (sort_insert compareFn x l) = List.filter P (x :: l).
Proof.
  intros HP. induction l as [|y l IH]; simpl.
  - reflexivity.
  - destruct (compareFn x y <=? 0) eqn:E; simpl.
    + reflexivity.
    + simpl in IH. rewrite IH.
      destruct (P x) eqn:Px, (P y) eqn:Py; try reflexivity.
      specialize (HP x y Px Py). apply Z.leb_gt in E. lia.
Qed.

Lemma Array_sort_stable (P : A -> bool) (l : list A) :
  (forall a b, P a = true -> P b = true -> compareFn a b <= 0) ->
  List.filter P (Array_sort compareFn l) = List.filter P l.
Proof.
  intros HP. induction l as [|x l IH]; simpl.
  - reflexivity.
  - rewrite sort_insert_filter by assumption. simpl. now rewrite IH.
Qed.

Section Consistent.
Hypothesis before_total : forall a b, before compareFn a b \/ before compareFn b a.
Hypothesis before_trans :
  forall a b c, before compareFn a b -> before compareFn b c -> before compareFn a c.

Lemma sort_insert_sorted (x : A) (l : list A) :
  StronglySorted (before compareFn) l ->
  StronglySorted (before compareFn) (sort_insert compareFn x l).
Proof.
  induction 1 as [|y l Hl IH Hy]; simpl.
  - repeat constructor.
  - destruct (compareFn x y <=? 0) eqn:E.
    + apply Z.leb_le in E. constructor.
      * now constructor.
      * constructor; [exact E|].
        eapply List.Forall_impl; [|exact Hy]. intros z Hz.
        now apply before_trans with y.
    + apply Z.leb_gt in E. constructor; [exact IH|].
      eapply Permutation_Forall; [symmetry; apply sort_insert_perm|].
      constructor; [|exact Hy].
      destruct (before_total y x) as [H|H]; [exact H|unfold before in H; lia].
Qed.

Lemma Array_sort_sorted (l : list A) :
  StronglySorted (before compareFn) (Array_sort compareFn l).
Proof.
  induction l as [|x l IH]; simpl.
  - constructor.
  - now apply sort_insert_sorted.
Qed.
End Consistent.

(** Sortedness asks of the comparator only that it is consistent on the
    elements of the array. *)
Section ConsistentOn.
Variable P : A -> Prop.
Hypothesis before_total_on :
  forall a b, P a -> P b -> before compareFn a b \/ before compareFn b a.
Hypothesis before_trans_on :
  forall a b c, P a -> P b -> P c ->
                before compareFn a b -> before compareFn b c -> before compareFn a c.

Lemma sort_insert_sorted_on (x : A) (l : list A) :
  P x -> List.Forall P l ->
  StronglySorted (before compareFn) l ->
  StronglySorted (before compareFn) (sort_insert compareFn x l).
Proof.
  intros Px HP HS. induction HS as [|y l Hl IH Hy]; simpl.
  - repeat constructor.
  - inversion HP as [|? ? Py HP']; subst.
    destruct (compareFn x y <=? 0) eqn:E.
    + apply Z.leb_le in E. constructor.
      * now constructor.
      * constructor; [exact E|].
        rewrite List.Forall_forall in Hy, HP' |- *. intros z Hz.
        apply before_trans_on with y; auto.
    + apply Z.leb_gt in E. constructor; [now apply IH|].
      eapply Permutation_Forall; [symmetry; apply sort_insert_perm|].
      constructor; [|exact Hy].
      destruct (before_total_on y x Py Px) as [H|H]; [exact H|unfold before in H; lia].
Qed.

Lemma Array_sort_sorted_on (l : list A) :
  List.Forall P l -> StronglySorted (before compareFn) (Array_sort compareFn l).
Proof.
  induction l as [|x l IH]; simpl; intros HP.
  - constructor.
  - inversion HP as [|? ? Px HP']; subst.
    apply sort_insert_sorted_on; [exact Px| |now apply IH].
    eapply Permutation_Forall; [symmetry; apply Array_sort_perm|exact HP'].
Qed.
End ConsistentOn.

(** Two sorted arrangements of the same elements coincide when no two
    distinct elements are in front of each other. *)
Lemma sorted_perm_unique (l1 l2 : list A) :
  StronglySorted (before compareFn) l1 -> StronglySorted (before compareFn) l2 ->
  Permutation l1 l2 ->
  (forall a b, In a l1 -> In b l1 ->
               before compareFn a b -> before compareFn b a -> a = b) ->
  l1 = l2.
Proof.
  intros S1. revert l2.
  induction S1 as [|x l1 S1 IH Hx]; intros l2 S2 HP Hanti.
  - apply Permutation_nil in HP. now subst.
  - destruct l2 as [|y l2].
    + symmetry in HP. now apply Permutation_nil in HP.
    + inversion S2 as [|? ? S2' Hy]; subst.
      assert (x = y) as ->.
      { assert (In y (x :: l1)) as Iy
          by (eapply Permutation_in; [symmetry; exact HP|now left]).
        assert (In x (y :: l2)) as Ix
          by (eapply Permutation_in; [exact HP|now left]).
        destruct Iy as [->|Iy]; [reflexivity|].
        destruct Ix as [->|Ix]; [reflexivity|].
        apply Hanti; [now left|now right| |].
        - rewrite List.Forall_forall in Hx. now apply Hx.
        - rewrite List.Forall_forall in Hy. now apply Hy. }
      f_equal. apply IH; [exact S2'| |].
      * now apply Permutation_cons_inv in HP.
      * intros a b Ia Ib. apply Hanti; now right.
Qed.
End ArraySortFacts.

(** ** Property reads *)


Lemma gt_Data (v : Object.Value Z) (n : Z) :
  Object.gt v n = true <-> exists p, v = Object.Data p /\ n < p.
Proof.
  destruct v as [x|m]; simpl.
  - rewrite Z.ltb_lt. split.
    + intros H. now exists x.
    + now intros (p & [= <-] & H).
  - split; [discriminate|]. now intros (p & E & _).
Qed.

(** ** The precedence table *)

Lemma getPriority_cases (k : string) :
  Wallet.getPriority k =
    if String.eqb k "Osmosis" then Object.Data 100
    else if String.eqb k "Ethereum" then Object.Data 50
    else if String.eqb k "Arbitrum" then Object.Data 30
    else if String.eqb k "Zilliqa" then Object.Data 20
    else if String.eqb k "Neo" then Object.Data 20
    else if Object.inherited k then Object.Member k
    else Object.Data (-99).
Proof.
  unfold Wallet.getPriority, Wallet.BLOCKCHAIN_PRIORITIES.
  repeat match goal with
  | |- context [String.eqb k ?s] =>
      destruct (String.eqb_spec k s) as [->|?]; [vm_compute; reflexivity|]
  end.
  rewrite !lookup_insert_ne by (cbv [Wallet.Osmosis Wallet.Ethereum
    Wallet.Arbitrum Wallet.Zilliqa Wallet.Neo]; congruence).
  rewrite lookup_empty. unfold Object.get.
  now destruct (Object.inherited k).
Qed.




(** ** The ranker / filter stage *)

Lemma surviving_In (balances : list Wallet.WalletBalance) (r : Wallet.RankedBalance) :
  In r (Wallet.surviving balances) <->
  (exists b, In b balances /\ r = Wallet.rank b) /\
  Object.gt (Wallet.priority r) (-99) = true /\
  Number.gt (Wallet.amount (Wallet.balance r)) 0%float = true.
Proof.
  unfold Wallet.surviving, Wallet.keep.
  rewrite List.filter_In, List.in_map_iff, andb_true_iff.
  split.
  - intros [(b & <- & Hb) H]. split; [now exists b|exact H].
  - intros [(b & Hb & ->) H]. split; [now exists b|exact H].
Qed.

Lemma surviving_number (balances : list Wallet.WalletBalance) (r : Wallet.RankedBalance) :
  In r (Wallet.surviving balances) -> exists x, Wallet.priority r = Object.Data x.
Proof.
  intros H. apply surviving_In in H. destruct H as (_ & H & _).
  apply gt_Data in H. destruct H as (p & E & _). now exists p.
Qed.

(** C1: a balance is kept by the filter stage exactly when its precedence is
    greater than -99 and its amount is greater than 0, and then it reaches
    the output; of an Ethereum balance of 5, an unknown chain's balance of 5
    and an Ethereum balance of -1 only the first one survives. *)
Theorem inclusion_rule :
  (forall (balances : list Wallet.WalletBalance) (b : Wallet.WalletBalance),
     In (Wallet.rank b) (Wallet.surviving balances) <->
     In b balances /\
     (exists p : Z, Wallet.getPriority (Wallet.blockchain b) = Object.Data p /\ -99 < p) /\
     Number.gt (Wallet.amount b) 0%float = true) /\
  (forall (balances : list Wallet.WalletBalance) (r : Wallet.RankedBalance),
     In r (Wallet.surviving balances) ->
     exists b, In b balances /\ r = Wallet.rank b) /\
  (forall (balances : list Wallet.WalletBalance) prices (r : Wallet.RankedBalance),
     In r (map Wallet.ranked (Wallet.formattedBalances balances prices)) <->
     In r (Wallet.surviving balances)) /\
  (forall c1 c2 c3 : string,
     Wallet.surviving
       [Wallet.mkBalance c1 5%float "Ethereum";
        Wallet.mkBalance c2 5%float "Unknown";
        Wallet.mkBalance c3 (-1)%float "Ethereum"]
     = [Wallet.mkRanked (Wallet.mkBalance c1 5%float "Ethereum") (Object.Data 50)]).
Proof.
  split; [|split; [|split]].
  - intros balances b. rewrite <- gt_Data. split.
    + intros H. apply surviving_In in H.
      destruct H as [(b' & Hb' & E) H]. injection E as ->. now split.
    + intros (Hb & Hp & Ha). apply surviving_In. split; [now exists b|now split].
  - intros balances r H. apply surviving_In in H. tauto.
  - intros balances prices r. unfold Wallet.formattedBalances, Wallet.sorted.
    rewrite List.map_map. simpl. rewrite List.map_id. apply Array_sort_In.
  - intros c1 c2 c3. vm_compute. reflexivity.
Qed.

Lemma inclusion_rule_witness :
  exists b,
    In b [Wallet.mkBalance "ETH" 5%float "Ethereum";
          Wallet.mkBalance "UNK" 5%float "Unknown"] /\
    Wallet.mkRanked (Wallet.mkBalance "ETH" 5%float "Ethereum") (Object.Data 50)
    = Wallet.rank b.
Proof.
  apply (proj1 (proj2 inclusion_rule)
           [Wallet.mkBalance "ETH" 5%float "Ethereum";
            Wallet.mkBalance "UNK" 5%float "Unknown"]).
  vm_compute. left. reflexivity.
Defined.

(** ** The sorter *)

Lemma filter_Permutation_bool {A : Type} (f : A -> bool) (l l' : list A) :
  Permutation l l' -> Permutation (List.filter f l) (List.filter f l').
Proof.
  induction 1 as [|x l l' _ IH|x y l|l l' l'' _ IH1 _ IH2]; simpl.
  - constructor.
  - destruct (f x); [now constructor|exact IH].
  - destruct (f x), (f y); try reflexivity. apply perm_swap.
  - now transitivity (List.filter f l').
Qed.

Lemma StronglySorted_weaken_in {A : Type} (R R' : A -> A -> Prop) (l : list A) :
  (forall a b, In a l -> In b l -> R a b -> R' a b) ->
  StronglySorted R l -> StronglySorted R' l.
Proof.
  intros HR HS. induction HS as [|x l _ IH Hx]; constructor.
  - apply IH. intros a b Ha Hb. apply HR; now right.
  - rewrite List.Forall_forall in Hx |- *. intros y Hy.
    apply HR; [now left|now right|now apply Hx].
Qed.

(** The priority of a record that holds a number. *)
Lemma before_numbers (a b : Wallet.RankedBalance) (x y : Z) :
  Wallet.priority a = Object.Data x -> Wallet.priority b = Object.Data y ->
  (before Wallet.byPriority a b <-> y <= x).
Proof.
  intros Ea Eb. unfold before, Wallet.byPriority. rewrite Ea, Eb. simpl. lia.
Qed.

Lemma sorted_before (balances : list Wallet.WalletBalance) :
  StronglySorted (before Wallet.byPriority) (Wallet.sorted balances).
Proof.
  unfold Wallet.sorted.
  apply (Array_sort_sorted_on Wallet.byPriority
           (fun r => exists x, Wallet.priority r = Object.Data x)).
  - intros a b (x & Ea) (y & Eb).
    rewrite (before_numbers a b x y Ea Eb), (before_numbers b a y x Eb Ea). lia.
  - intros a b c (x & Ea) (y & Eb) (z & Ec).
    rewrite (before_numbers a b x y Ea Eb), (before_numbers b c y z Eb Ec),
      (before_numbers a c x z Ea Ec). lia.
  - apply List.Forall_forall. intros r. apply surviving_number.
Qed.

Lemma sorted_StronglySorted (balances : list Wallet.WalletBalance) :
  StronglySorted
    (fun a b => exists x y : Z,
       Wallet.priority a = Object.Data x /\ Wallet.priority b = Object.Data y /\ y <= x)
    (Wallet.sorted balances).
Proof.
  eapply StronglySorted_weaken_in; [|apply sorted_before].
  intros a b Ha Hb H. unfold Wallet.sorted in Ha, Hb.
  apply Array_sort_In, surviving_number in Ha, Hb.
  destruct Ha as (x & Ea), Hb as (y & Eb). exists x, y.
  split; [exact Ea|]. split; [exact Eb|]. now apply (before_numbers a b x y Ea Eb).
Qed.

Lemma sorted_three (b1 b2 b3 : Wallet.WalletBalance) (balances : list Wallet.WalletBalance) :
  Wallet.blockchain b1 = "Osmosis" ->
  Wallet.blockchain b2 = "Ethereum" ->
  Wallet.blockchain b3 = "Arbitrum" ->
  Number.gt (Wallet.amount b1) 0%float = true ->
  Number.gt (Wallet.amount b2) 0%float = true ->
  Number.gt (Wallet.amount b3) 0%float = true ->
  Permutation balances [b1; b2; b3] ->
  Wallet.sorted balances = [Wallet.rank b1; Wallet.rank b2; Wallet.rank b3].
Proof.
  intros E1 E2 E3 A1 A2 A3 HP.
  assert (P1 : Wallet.priority (Wallet.rank b1) = Object.Data 100)
    by (unfold Wallet.rank; simpl; now rewrite E1).
  assert (P2 : Wallet.priority (Wallet.rank b2) = Object.Data 50)
    by (unfold Wallet.rank; simpl; now rewrite E2).
  assert (P3 : Wallet.priority (Wallet.rank b3) = Object.Data 30)
    by (unfold Wallet.rank; simpl; now rewrite E3).
  assert (HS : Permutation (Wallet.sorted balances)
                 [Wallet.rank b1; Wallet.rank b2; Wallet.rank b3]).
  { unfold Wallet.sorted. rewrite Array_sort_perm. unfold Wallet.surviving.
    rewrite (filter_Permutation_bool Wallet.keep _ _ (Permutation_map Wallet.rank HP)).
    simpl. unfold Wallet.keep. rewrite P1, P2, P3. simpl.
    now rewrite A1, A2, A3. }
  apply (sorted_perm_unique Wallet.byPriority).
  - apply sorted_before.
  - unfold before, Wallet.byPriority.
    repeat constructor; rewrite ?P1, ?P2, ?P3; simpl; lia.
  - exact HS.
  - intros a b Ia Ib. unfold before, Wallet.byPriority. intros Hab Hba.
    apply (Permutation_in _ HS) in Ia. apply (Permutation_in _ HS) in Ib.
    simpl in Ia, Ib.
    destruct Ia as [<-|[<-|[<-|[]]]], Ib as [<-|[<-|[<-|[]]]];
      try reflexivity; rewrite ?P1, ?P2, ?P3 in *; simpl in *; lia.
Qed.

(** C3: the sorter puts the surviving records in descending order of
    precedence without adding or losing any; records of equal precedence
    keep the relative order they had in the input, so the result is one
    fixed arrangement; the formatter keeps that order; three positive
    balances on Osmosis, Ethereum and Arbitrum come out in exactly that
    order, however they were arranged. *)
Theorem sorted_descending_stable :
  (forall balances : list Wallet.WalletBalance,
     StronglySorted
       (fun a b => exists x y : Z,
          Wallet.priority a = Object.Data x /\ Wallet.priority b = Object.Data y /\
          y <= x)
       (Wallet.sorted balances)) /\
  (forall balances : list Wallet.WalletBalance,
     Permutation (Wallet.sorted balances) (Wallet.surviving balances)) /\
  (forall (balances : list Wallet.WalletBalance) (p : Z),
     List.filter (fun r => Object.equals (Wallet.priority r) p) (Wallet.sorted balances)
     = List.filter (fun r => Object.equals (Wallet.priority r) p) (Wallet.surviving balances)) /\
  (forall (balances : list Wallet.WalletBalance) prices,
     map Wallet.ranked (Wallet.formattedBalances balances prices)
     = Wallet.sorted balances) /\
  (forall (b1 b2 b3 : Wallet.WalletBalance) (balances : list Wallet.WalletBalance),
     Wallet.blockchain b1 = "Osmosis" ->
     Wallet.blockchain b2 = "Ethereum" ->
     Wallet.blockchain b3 = "Arbitrum" ->
     Number.gt (Wallet.amount b1) 0%float = true ->
     Number.gt (Wallet.amount b2) 0%float = true ->
     Number.gt (Wallet.amount b3) 0%float = true ->
     Permutation balances [b1; b2; b3] ->
     map (fun r => Wallet.blockchain (Wallet.balance r)) (Wallet.sorted balances)
     = ["Osmosis"; "Ethereum"; "Arbitrum"]) /\
  map (fun r => (Wallet.blockchain (Wallet.balance r), Wallet.currency (Wallet.balance r)))
    (Wallet.sorted
       [Wallet.mkBalance "NEO" 1%float "Neo";
        Wallet.mkBalance "ARB" 2%float "Arbitrum";
        Wallet.mkBalance "ZIL" 3%float "Zilliqa";
        Wallet.mkBalance "OSMO" 4%float "Osmosis";
        Wallet.mkBalance "GAS" 5%float "Neo";
        Wallet.mkBalance "ETH" 6%float "Ethereum"])
  = [("Osmosis", "OSMO"); ("Ethereum", "ETH"); ("Arbitrum", "ARB");
     ("Neo", "NEO"); ("Zilliqa", "ZIL"); ("Neo", "GAS")].
Proof.
  split; [|split; [|split; [|split; [|split]]]].
  - exact sorted_StronglySorted.
  - intros balances. apply Array_sort_perm.
  - intros balances p. apply Array_sort_stable.
    intros a b Ha Hb. unfold Wallet.byPriority, Object.equals in *.
    destruct (Wallet.priority a) as [x|], (Wallet.priority b) as [y|];
      try discriminate.
    apply Z.eqb_eq in Ha, Hb. simpl. lia.
  - intros balances prices. unfold Wallet.formattedBalances.
    rewrite List.map_map. simpl. apply List.map_id.
  - intros b1 b2 b3 balances E1 E2 E3 A1 A2 A3 HP.
    rewrite (sorted_three b1 b2 b3 balances) by assumption.
    simpl. now rewrite E1, E2, E3.
  - vm_compute. reflexivity.
Qed.

Lemma sorted_descending_stable_witness :
  map (fun r => Wallet.blockchain (Wallet.balance r))
    (Wallet.sorted
       [Wallet.mkBalance "ARB" 3%float "Arbitrum";
        Wallet.mkBalance "OSMO" 1%float "Osmosis";
        Wallet.mkBalance "ETH" 2%float "Ethereum"])
  = ["Osmosis"; "Ethereum"; "Arbitrum"].
Proof.
  apply (proj1 (proj2 (proj2 (proj2 (proj2 sorted_descending_stable))))
           (Wallet.mkBalance "OSMO" 1%float "Osmosis")
           (Wallet.mkBalance "ETH" 2%float "Ethereum")
           (Wallet.mkBalance "ARB" 3%float "Arbitrum"));
    try reflexivity.
  apply Permutation_cons_app with (l1 := [_; _]) (l2 := []). reflexivity.
Defined.

(** ** Facts about numbers *)

Lemma Prim2SF_zero : Prim2SF 0%float = S754_zero false.
Proof. reflexivity. Qed.

Lemma SFltb_SFleb (x y : spec_float) : SFltb x y = true -> SFleb y x = false.
Proof.
  unfold SFltb, SFleb.
  destruct x as [[]|[]| |[] m1 e1], y as [[]|[]| |[] m2 e2]; simpl;
    try discriminate; try reflexivity;
    rewrite (Z.compare_antisym e1 e2);
    replace (Pos.compare_cont Eq m2 m1) with (CompOpp (Pos.compare_cont Eq m1 m2))
      by (rewrite Pos.compare_cont_antisym; reflexivity);
    destruct (e1 ?= e2), (Pos.compare_cont Eq m1 m2); simpl;
    try discriminate; reflexivity.
Qed.

(** A number greater than 0 is a positive finite number or +Infinity. *)
Lemma gt_zero_inv (x : Number.number) :
  Number.gt x 0%float = true ->
  (exists m e, Prim2SF x = S754_finite false m e) \/ Prim2SF x = S754_infinity false.
Proof.
  unfold Number.gt. rewrite ltb_spec, Prim2SF_zero.
  destruct (Prim2SF x) as [s|[]| |[] m e]; simpl; try discriminate.
  - now right.
  - left. now exists m, e.
Qed.

Lemma abs_nonneg (x : Number.number) (m : positive) (e : Z) :
  Prim2SF x = S754_finite false m e -> PrimFloat.abs x = x.
Proof.
  intros H. apply Prim2SF_inj. now rewrite abs_spec, H.
Qed.

Lemma is_infinity_false (x : Number.number) :
  PrimFloat.is_infinity x = false -> Prim2SF x <> S754_infinity false.
Proof.
  unfold PrimFloat.is_infinity. rewrite FloatAxioms.eqb_spec, abs_spec.
  intros H E. rewrite E in H. discriminate H.
Qed.

(** [0 * x] is [0] for a positive finite [x]. *)
Lemma mul_zero_finite (x : Number.number) (m : positive) (e : Z) :
  Prim2SF x = S754_finite false m e -> PrimFloat.mul 0%float x = 0%float.
Proof.
  intros H. apply Prim2SF_inj. rewrite mul_spec, H. reflexivity.
Qed.

Lemma nan_not_zero : PrimFloat.nan <> 0%float.
Proof.
  intros H. apply (f_equal PrimFloat.is_nan) in H. discriminate H.
Qed.

(** ** Decimal notation *)

Lemma digit_char_is_digit (d : Z) : Number.is_digit (Number.digit_char d) = true.
Proof.
  unfold Number.digit_char.
  destruct d as [|[[[[]|[]|]|[[]|[]|]|]|[[[]|[]|]|[[]|[]|]|]|]|]; reflexivity.
Qed.

Lemma digits_only_app (a b : string) :
  digits_only (a +:+ b) = digits_only a && digits_only b.
Proof.
  induction a as [|c a IH]; simpl.
  - reflexivity.
  - now rewrite IH, andb_assoc.
Qed.

Lemma length_app (a b : string) :
  String.length (a +:+ b) = (String.length a + String.length b)%nat.
Proof. induction a as [|c a IH]; simpl; [reflexivity|now rewrite IH]. Qed.

Lemma digits_acc_digits (fuel : nat) (n : Z) (acc : string) :
  digits_only acc = true -> digits_only (Number.digits_acc fuel n acc) = true.
Proof.
  revert n acc. induction fuel as [|fuel IH]; intros n acc H; simpl.
  - exact H.
  - destruct (n / 10 =? 0).
    + simpl. now rewrite digit_char_is_digit.
    + apply IH. simpl. now rewrite digit_char_is_digit.
Qed.

Lemma digits_acc_nonempty (fuel : nat) (n : Z) (acc : string) :
  acc <> "" -> Number.digits_acc fuel n acc <> "".
Proof.
  revert n acc. induction fuel as [|fuel IH]; intros n acc H; simpl.
  - exact H.
  - destruct (n / 10 =? 0); [discriminate|]. apply IH. discriminate.
Qed.

Lemma decimal_digits (n : Z) :
  digits_only (Number.decimal n) = true /\ Number.decimal n <> "".
Proof.
  unfold Number.decimal. split.
  - now apply digits_acc_digits.
  - simpl. destruct (n / 10 =? 0); [discriminate|].
    apply digits_acc_nonempty. discriminate.
Qed.

Lemma frac_digits_digits (f : nat) (n : Z) :
  digits_only (Number.frac_digits f n) = true /\
  String.length (Number.frac_digits f n) = f.
Proof.
  revert n. induction f as [|f IH]; intros n; simpl.
  - now split.
  - destruct (IH (n / 10)) as [Hd Hl]. split.
    + rewrite digits_only_app, Hd. simpl. now rewrite digit_char_is_digit.
    + rewrite length_app, Hl. simpl. lia.
Qed.

Lemma fixed_point_notation (n : Z) (f : nat) :
  f <> O -> fixed_notation f (Number.fixed_point n f).
Proof.
  intros Hf. unfold Number.fixed_point. destruct f as [|f]; [easy|].
  exists (Number.decimal (n / 10 ^ Z.of_nat (S f))), (Number.frac_digits (S f) n).
  destruct (decimal_digits (n / 10 ^ Z.of_nat (S f))) as [Hd Hn].
  destruct (frac_digits_digits (S f) n) as [Fd Fl].
  repeat split; assumption.
Qed.


(** ** The formatter *)

Lemma formattedBalances_In (balances : list Wallet.WalletBalance) prices
    (f : Wallet.FormattedWalletBalance) :
  In f (Wallet.formattedBalances balances prices) ->
  exists r, f = Wallet.format prices r /\
            In r (Wallet.sorted balances) /\ Wallet.keep r = true.
Proof.
  unfold Wallet.formattedBalances. rewrite List.in_map_iff.
  intros (r & <- & Hr). exists r. repeat split; [exact Hr|].
  apply Array_sort_In in Hr. unfold Wallet.surviving in Hr.
  now apply List.filter_In in Hr.
Qed.

Lemma keep_amount (r : Wallet.RankedBalance) :
  Wallet.keep r = true ->
  Number.gt (Wallet.amount (Wallet.balance r)) 0%float = true.
Proof. unfold Wallet.keep. now intros [_ H]%andb_true_iff. Qed.

Lemma mul_nan (x : float) : PrimFloat.mul nan x = nan.
Proof.
  apply Prim2SF_inj. rewrite mul_spec.
  change (Prim2SF nan) with S754_nan. reflexivity.
Qed.

(** C5, as amended: every record that survives the filter is in the output,
    in the sorter's order; when the price table has no entry for its
    currency, the currency is not the name of a member of
    [Object.prototype] and its amount is finite, [usdValue] is 0; when the
    table has an entry, [usdValue] is the price times the amount; and when
    the table has none and the currency names a member of
    [Object.prototype], the price read is that member and [usdValue] is
    NaN. *)
Theorem missing_price_defaults_to_zero :
  (forall (balances : list Wallet.WalletBalance) prices,
     map Wallet.ranked (Wallet.formattedBalances balances prices)
     = Wallet.sorted balances) /\
  (forall (balances : list Wallet.WalletBalance) prices
          (f : Wallet.FormattedWalletBalance),
     In f (Wallet.formattedBalances balances prices) ->
     prices !! Wallet.currency (Wallet.balance (Wallet.ranked f)) = None ->
     Object.inherited (Wallet.currency (Wallet.balance (Wallet.ranked f))) = false ->
     PrimFloat.is_finite (Wallet.amount (Wallet.balance (Wallet.ranked f))) = true ->
     Wallet.usdValue f = 0%float) /\
  (forall (balances : list Wallet.WalletBalance) prices
          (f : Wallet.FormattedWalletBalance) (p : Number.number),
     In f (Wallet.formattedBalances balances prices) ->
     prices !! Wallet.currency (Wallet.balance (Wallet.ranked f)) = Some p ->
     Wallet.usdValue f
     = PrimFloat.mul p (Wallet.amount (Wallet.balance (Wallet.ranked f)))) /\
  (forall (balances : list Wallet.WalletBalance) prices
          (f : Wallet.FormattedWalletBalance),
     In f (Wallet.formattedBalances balances prices) ->
     prices !! Wallet.currency (Wallet.balance (Wallet.ranked f)) = None ->
     Object.inherited (Wallet.currency (Wallet.balance (Wallet.ranked f))) = true ->
     Wallet.usdValue f = nan).
Proof.
  split; [|split; [|split]].
  - intros balances prices. unfold Wallet.formattedBalances.
    rewrite List.map_map. simpl. apply List.map_id.
  - intros balances prices f Hf Hnone Hown Hfin.
    destruct (formattedBalances_In _ _ _ Hf) as (r & -> & _ & Hk).
    unfold Wallet.format in *.
    cbn [Wallet.usdValue Wallet.ranked] in *. rewrite Hnone.
    unfold Object.get. rewrite Hown.
    cbn [default from_option Object.toNumber].
    destruct (gt_zero_inv _ (keep_amount _ Hk)) as [(m & e & E)|E].
    + exact (mul_zero_finite _ m e E).
    + exfalso. unfold PrimFloat.is_finite in Hfin.
      apply negb_true_iff, orb_false_iff in Hfin. destruct Hfin as [_ Hinf].
      exact (is_infinity_false _ Hinf E).
  - intros balances prices f p Hf Hsome.
    destruct (formattedBalances_In _ _ _ Hf) as (r & -> & _ & _).
    unfold Wallet.format in *.
    cbn [Wallet.usdValue Wallet.ranked] in *. now rewrite Hsome.
  - intros balances prices f Hf Hnone Hinh.
    destruct (formattedBalances_In _ _ _ Hf) as (r & -> & _ & _).
    unfold Wallet.format in *.
    cbn [Wallet.usdValue Wallet.ranked] in *. rewrite Hnone.
    unfold Object.get. rewrite Hinh.
    cbn [default from_option Object.toNumber]. apply mul_nan.
Qed.

Lemma missing_price_defaults_to_zero_witness :
  Wallet.usdValue
    (Wallet.format ∅ (Wallet.rank (Wallet.mkBalance "ETH" 5%float "Ethereum")))
  = 0%float.
Proof.
  apply (proj1 (proj2 missing_price_defaults_to_zero)
           [Wallet.mkBalance "ETH" 5%float "Ethereum"] ∅).
  - vm_compute. left. reflexivity.
  - reflexivity.
  - reflexivity.
  - reflexivity.
Defined.

(** The claim C5 fails for an infinite amount: the record passes the filter
    and its [usdValue] is [0 * Infinity], which is NaN. It fails as well
    for a currency that names a member of [Object.prototype]: the table has
    no entry for it, the price read is the inherited member, and [usdValue]
    is NaN for the finite amount 5. *)
Lemma missing_price_infinite_amount :
  (Wallet.formattedBalances [Wallet.mkBalance "ZIL" infinity "Zilliqa"] ∅
   = [Wallet.mkFormatted
        (Wallet.mkRanked (Wallet.mkBalance "ZIL" infinity "Zilliqa") (Object.Data 20))
        "Infinity" nan] /\
   (∅ : gmap string Number.number) !! "ZIL" = None) /\
  (Wallet.formattedBalances [Wallet.mkBalance "constructor" 5%float "Ethereum"] ∅
   = [Wallet.mkFormatted
        (Wallet.mkRanked (Wallet.mkBalance "constructor" 5%float "Ethereum")
           (Object.Data 50))
        "5.00000000" nan] /\
   (∅ : gmap string Number.number) !! "constructor" = None) /\
  nan <> 0%float.
Proof.
  split; [|split].
  - split; [vm_compute; reflexivity|reflexivity].
  - split; [vm_compute; reflexivity|reflexivity].
  - exact nan_not_zero.
Qed.




(** ** The exchange calculation *)

(** [x > 0] fails exactly when [x] is NaN or [x <= 0]. *)
Lemma gt_zero_negb (x : Number.number) :
  Number.gt x 0%float = negb (Number.isNaN x || Number.le x 0%float).
Proof.
  unfold Number.gt, Number.isNaN, Number.le, PrimFloat.is_nan.
  rewrite ltb_spec, leb_spec, FloatAxioms.eqb_spec, Prim2SF_zero.
  unfold SFltb, SFleb, SFeqb.
  destruct (Prim2SF x) as [[]|[]| |[] m e]; simpl; try reflexivity;
    rewrite Z.compare_refl, Pos.compare_cont_refl; reflexivity.
Qed.

(** C4, as amended: for a non-empty amount that parses to a number greater
    than 0 and two tokens whose prices are neither 0 nor NaN,
    [calculateExchange] returns [amount * sourcePrice / targetPrice] printed
    with 6 fractional digits (amount 10, prices 2 and 4 give "5.000000");
    it returns the empty string when a token is absent, when a price is 0 or
    NaN, when the amount is empty, and when the amount parses to NaN or to a
    number that is not greater than 0. *)
Theorem calculateExchange_rule :
  (forall (amount : string) (f t : SwapForm.Token),
     amount <> "" ->
     Number.truthy (SwapForm.token_price f) = true ->
     Number.truthy (SwapForm.token_price t) = true ->
     Number.gt (Number.parseFloat amount) 0%float = true ->
     SwapForm.calculateExchange amount (Some f) (Some t)
     = Number.toFixed
         (PrimFloat.div
            (PrimFloat.mul (Number.parseFloat amount) (SwapForm.token_price f))
            (SwapForm.token_price t)) 6) /\
  (forall (amount : string) (from to : option SwapForm.Token),
     from = None \/ to = None \/ amount = "" \/
     (exists f, from = Some f /\ Number.truthy (SwapForm.token_price f) = false) \/
     (exists t, to = Some t /\ Number.truthy (SwapForm.token_price t) = false) \/
     Number.gt (Number.parseFloat amount) 0%float = false ->
     SwapForm.calculateExchange amount from to = "") /\
  (forall (amount c : string) (from : option SwapForm.Token),
     SwapForm.calculateExchange amount from (Some (SwapForm.mkToken c 0%float)) = "") /\
  (forall a b : string,
     SwapForm.calculateExchange "10"
       (Some (SwapForm.mkToken a 2%float)) (Some (SwapForm.mkToken b 4%float))
     = "5.000000").
Proof.
  split; [|split; [|split]].
  - intros amount f t Ha Hf Ht Hn. unfold SwapForm.calculateExchange.
    apply String.eqb_neq in Ha. rewrite Ha, Hf, Ht. simpl.
    rewrite gt_zero_negb in Hn. apply negb_true_iff in Hn. now rewrite Hn.
  - intros amount from to H. unfold SwapForm.calculateExchange.
    destruct from as [f|]; [|reflexivity]. destruct to as [t|]; [|reflexivity].
    destruct (String.eqb_spec amount "") as [|Ha]; [reflexivity|].
    destruct (Number.truthy (SwapForm.token_price f)) eqn:Hf; [|reflexivity].
    destruct (Number.truthy (SwapForm.token_price t)) eqn:Ht; [|reflexivity].
    simpl.
    destruct H as [H|[H|[H|[(f' & E & H)|[(t' & E & H)|H]]]]];
      try discriminate; try contradiction.
    + injection E as <-. rewrite Hf in H. discriminate H.
    + injection E as <-. rewrite Ht in H. discriminate H.
    + rewrite gt_zero_negb in H. apply negb_false_iff in H. now rewrite H.
  - intros amount c from. unfold SwapForm.calculateExchange.
    destruct from as [f|]; [|reflexivity]. simpl.
    now rewrite !orb_true_r.
  - intros a b. vm_compute. reflexivity.
Qed.

Lemma calculateExchange_rule_witness :
  SwapForm.calculateExchange "10"
    (Some (SwapForm.mkToken "USDC" 2%float)) (Some (SwapForm.mkToken "SWTH" 4%float))
  = Number.toFixed
      (PrimFloat.div (PrimFloat.mul (Number.parseFloat "10") 2%float) 4%float) 6.
Proof.
  apply (proj1 calculateExchange_rule "10"
           (SwapForm.mkToken "USDC" 2%float) (SwapForm.mkToken "SWTH" 4%float)).
  - discriminate.
  - reflexivity.
  - reflexivity.
  - reflexivity.
Defined.

(** The claim C4 fails for an amount that is not finite: "Infinity" parses
    to +Infinity, which is neither NaN nor [<= 0], and the result is the
    string "Infinity"; and what is returned is the quotient printed with 6
    fractional digits, not the quotient. *)
Lemma calculateExchange_infinite_amount :
  Number.parseFloat "Infinity" = infinity /\
  PrimFloat.is_finite (Number.parseFloat "Infinity") = false /\
  SwapForm.calculateExchange "Infinity"
    (Some (SwapForm.mkToken "USDC" 2%float)) (Some (SwapForm.mkToken "SWTH" 4%float))
  = "Infinity" /\
  SwapForm.calculateExchange "1"
    (Some (SwapForm.mkToken "USDC" 1%float)) (Some (SwapForm.mkToken "SWTH" 3%float))
  = "0.333333" /\
  Number.toString (PrimFloat.div (PrimFloat.mul (Number.parseFloat "1") 1%float) 3%float)
  = "0.3333333333333333".
Proof. repeat split; vm_compute; reflexivity. Qed.

(** ** The amount mask *)

Lemma append_empty (s1 s2 : string) : s1 +:+ s2 = "" -> s1 = "" /\ s2 = "".
Proof. destruct s1; simpl; [tauto|discriminate]. Qed.

Lemma nullable_matches (r : CurrencyInput.regex) :
  CurrencyInput.nullable r = true <-> matches r "".
Proof.
  split.
  - induction r as [| |p|r1 IH1 r2 IH2|r1 IH1 r2 IH2|r IH]; simpl; intros H;
      try discriminate.
    + constructor.
    + apply andb_true_iff in H. destruct H as [H1 H2].
      apply (matches_Seq r1 r2 "" ""); auto.
    + apply orb_true_iff in H. destruct H as [H|H];
        [apply matches_Alt_l|apply matches_Alt_r]; auto.
    + constructor.
  - intros H. remember "" as s eqn:E.
    induction H as [|p c Hc|r1 r2 s1 s2 _ IH1 _ IH2|r1 r2 s _ IH|r1 r2 s _ IH| |];
      simpl; try reflexivity; try discriminate.
    + apply append_empty in E. destruct E as [-> ->].
      now rewrite IH1, IH2.
    + now rewrite IH.
    + rewrite IH by assumption. apply orb_true_r.
Qed.

Lemma after_sound (c : ascii) (r : CurrencyInput.regex) (s : string) :
  matches (CurrencyInput.after c r) s -> matches r (String c s).
Proof.
  revert s.
  induction r as [| |p|r1 IH1 r2 IH2|r1 IH1 r2 IH2|r IH]; simpl; intros s H.
  - inversion H.
  - inversion H.
  - destruct (p c) eqn:Hp; inversion H; subst. now constructor.
  - assert (left : forall s, matches (CurrencyInput.Seq (CurrencyInput.after c r1) r2) s ->
                             matches (CurrencyInput.Seq r1 r2) (String c s)).
    { intros s' H'. inversion H' as [| |? ? s1 s2 H1 H2| | | |]; subst.
      apply (matches_Seq r1 r2 (String c s1) s2); auto. }
    destruct (CurrencyInput.nullable r1) eqn:N.
    + inversion H as [| | |? ? ? H'|? ? ? H'| |]; subst.
      * now apply left.
      * apply (matches_Seq r1 r2 "" (String c s)); [now apply nullable_matches|auto].
    + now apply left.
  - inversion H; subst; [apply matches_Alt_l|apply matches_Alt_r]; auto.
  - inversion H as [| |? ? s1 s2 H1 H2| | | |]; subst.
    apply (matches_Star_app r (String c s1) s2); auto.
Qed.

Lemma after_complete (r : CurrencyInput.regex) (s' : string) :
  matches r s' ->
  forall (c : ascii) (s : string), s' = String c s -> matches (CurrencyInput.after c r) s.
Proof.
  induction 1 as [|p c' Hc|r1 r2 s1 s2 H1 IH1 H2 IH2|r1 r2 s0 _ IH|r1 r2 s0 _ IH|
                  |r s1 s2 H1 IH1 H2 IH2]; intros c s E; simpl.
  - discriminate E.
  - injection E as -> <-. rewrite Hc. constructor.
  - destruct s1 as [|c1 s1]; simpl in E.
    + apply nullable_matches in H1. rewrite H1.
      apply matches_Alt_r. now apply IH2.
    + injection E as -> <-.
      assert (matches (CurrencyInput.Seq (CurrencyInput.after c r1) r2) (s1 +:+ s2))
        by (constructor; auto).
      destruct (CurrencyInput.nullable r1); [now apply matches_Alt_l|assumption].
  - apply matches_Alt_l. now apply IH.
  - apply matches_Alt_r. now apply IH.
  - discriminate E.
  - destruct s1 as [|c1 s1]; simpl in E.
    + now apply IH2.
    + injection E as -> <-. constructor; auto.
Qed.

(** The matcher decides the denotation. *)
Lemma test_matches (r : CurrencyInput.regex) (s : string) :
  CurrencyInput.test r s = true <-> matches r s.
Proof.
  revert r. induction s as [|c s IH]; intros r; simpl.
  - apply nullable_matches.
  - rewrite IH. split.
    + apply after_sound.
    + intros H. now apply (after_complete r (String c s)).
Qed.

Lemma matches_digits (s : string) :
  matches (CurrencyInput.Star (CurrencyInput.Class Number.is_digit)) s <->
  digits_only s = true.
Proof.
  split.
  - intros H.
    remember (CurrencyInput.Star (CurrencyInput.Class Number.is_digit)) as r eqn:E.
    induction H as [| | | | | |r' s1 s2 H1 _ _ IH2]; try discriminate E.
    + reflexivity.
    + injection E as ->. inversion H1 as [|? c Hc| | | | |]; subst.
      change (String c "" +:+ s2) with (String c s2). simpl.
      rewrite IH2 by reflexivity. now rewrite Hc.
  - induction s as [|c s IH]; simpl; intros H.
    + constructor.
    + apply andb_true_iff in H. destruct H as [Hc Hs].
      apply (matches_Star_app _ (String c "") s); [now constructor|auto].
Qed.

Lemma amountPattern_syntax (s : string) :
  matches CurrencyInput.amountPattern s <-> amount_syntax s.
Proof.
  unfold CurrencyInput.amountPattern, CurrencyInput.optional, amount_syntax. split.
  - intros H. inversion H as [| |? ? a s' Ha Hs'| | | |]; subst.
    inversion Hs' as [| |? ? o b Ho Hb| | | |]; subst.
    exists a, b. apply matches_digits in Ha, Hb. repeat split; try assumption.
    inversion Ho as [| | |? ? ? Hdot|? ? ? Hnone| |]; subst.
    + inversion Hdot as [|? c Hc| | | | |]; subst.
      apply Ascii.eqb_eq in Hc. subst c. now right.
    + inversion Hnone; subst. now left.
  - intros (a & b & Ha & Hb & [->| ->]); apply matches_digits in Ha, Hb;
      constructor; try assumption.
    + apply (matches_Seq _ _ "" b); [|assumption].
      apply matches_Alt_r. constructor.
    + apply (matches_Seq _ _ "." b); [|assumption].
      apply matches_Alt_l. now constructor.
Qed.

(** C8: the handler passes the new value on exactly when it is the empty
    string or an optional run of digits, an optional single decimal point
    and an optional run of digits; otherwise it leaves the state as it was.
    "12.34" and "" are accepted; "12.3.4", a minus sign and an exponent are
    rejected. *)
Theorem handleAmountChange_mask :
  (forall s : string,
     CurrencyInput.test CurrencyInput.amountPattern s = true <-> amount_syntax s) /\
  (forall (ParentState : Type) (onAmountChange : string -> ParentState -> ParentState)
          (value : string) (st : ParentState),
     (value = "" \/ amount_syntax value ->
      CurrencyInput.handleAmountChange ParentState onAmountChange value st
      = onAmountChange value st) /\
     (~ (value = "" \/ amount_syntax value) ->
      CurrencyInput.handleAmountChange ParentState onAmountChange value st = st)) /\
  (forall st : SwapForm.State,
     CurrencyInput.handleAmountChange _ SwapForm.handleFromAmountChange "12.34" st
     = SwapForm.handleFromAmountChange "12.34" st /\
     CurrencyInput.handleAmountChange _ SwapForm.handleFromAmountChange "" st
     = SwapForm.handleFromAmountChange "" st /\
     CurrencyInput.handleAmountChange _ SwapForm.handleFromAmountChange "12.3.4" st = st /\
     CurrencyInput.handleAmountChange _ SwapForm.handleFromAmountChange "-1" st = st /\
     CurrencyInput.handleAmountChange _ SwapForm.handleFromAmountChange "1e5" st = st).
Proof.
  split; [|split].
  - intros s. rewrite test_matches. apply amountPattern_syntax.
  - intros ParentState onAmountChange value st.
    unfold CurrencyInput.handleAmountChange. split.
    + intros [->|H]; [reflexivity|].
      apply amountPattern_syntax, test_matches in H. rewrite H.
      now rewrite orb_true_r.
    + intros H.
      destruct (String.eqb_spec value "") as [E|_]; [exfalso; auto|].
      destruct (CurrencyInput.test CurrencyInput.amountPattern value) eqn:T;
        [|reflexivity].
      exfalso. apply H. right. now apply amountPattern_syntax, test_matches.
  - intros st. repeat split; reflexivity.
Qed.

Lemma handleAmountChange_mask_witness :
  CurrencyInput.handleAmountChange _ SwapForm.handleFromAmountChange "0.5"
    (SwapForm.mkState None None "" "" "")
  = SwapForm.handleFromAmountChange "0.5" (SwapForm.mkState None None "" "" "").
Proof.
  apply (proj1 (proj1 (proj2 handleAmountChange_mask) _
                  SwapForm.handleFromAmountChange "0.5"
                  (SwapForm.mkState None None "" "" ""))).
  right. exists "0", "5". repeat split. now right.
Defined.

(** ** The normalizer *)

Lemma get_set_eq (k : string) (v : SwapForm.Item) (pm : SwapForm.PriceMap) :
  SwapForm.get k (SwapForm.set k v pm) = Some v.
Proof.
  induction pm as [|[k' v'] pm IH]; simpl.
  - now rewrite String.eqb_refl.
  - destruct (String.eqb_spec k' k) as [->|N]; simpl.
    + now rewrite String.eqb_refl.
    + apply String.eqb_neq in N. now rewrite N.
Qed.

Lemma get_set_ne (k k' : string) (v : SwapForm.Item) (pm : SwapForm.PriceMap) :
  k <> k' -> SwapForm.get k (SwapForm.set k' v pm) = SwapForm.get k pm.
Proof.
  intros N. induction pm as [|[k0 v0] pm IH]; simpl.
  - apply not_eq_sym, String.eqb_neq in N. now rewrite N.
  - destruct (String.eqb_spec k0 k') as [->|N']; simpl.
    + apply not_eq_sym, String.eqb_neq in N. now rewrite N.
    + now rewrite IH.
Qed.

Lemma get_None (k : string) (pm : SwapForm.PriceMap) :
  SwapForm.get k pm = None <-> ~ In k (map fst pm).
Proof.
  induction pm as [|[k' v'] pm IH]; simpl.
  - tauto.
  - destruct (String.eqb_spec k' k) as [->|N].
    + split; [discriminate|tauto].
    + rewrite IH. tauto.
Qed.

Lemma get_In (k : string) (v : SwapForm.Item) (pm : SwapForm.PriceMap) :
  List.NoDup (map fst pm) -> (SwapForm.get k pm = Some v <-> In (k, v) pm).
Proof.
  induction pm as [|[k' v'] pm IH]; simpl; intros ND.
  - split; [discriminate|tauto].
  - inversion ND as [|? ? Hk ND']; subst.
    destruct (String.eqb_spec k' k) as [->|N].
    + split.
      * intros [= ->]. now left.
      * intros [[= ->]|H]; [reflexivity|].
        exfalso. apply Hk. apply (List.in_map fst) in H. exact H.
    + rewrite (IH ND'). split; [tauto|].
      intros [[= -> ->]|H]; [contradiction|exact H].
Qed.

Lemma set_keys (k : string) (v : SwapForm.Item) (pm : SwapForm.PriceMap) :
  map fst (SwapForm.set k v pm)
  = match SwapForm.get k pm with
    | Some _ => map fst pm
    | None => map fst pm ++ [k]
    end.
Proof.
  induction pm as [|[k' v'] pm IH]; simpl.
  - reflexivity.
  - destruct (String.eqb_spec k' k) as [->|N]; simpl.
    + reflexivity.
    + rewrite IH. now destruct (SwapForm.get k pm).
Qed.

Lemma set_NoDup (k : string) (v : SwapForm.Item) (pm : SwapForm.PriceMap) :
  List.NoDup (map fst pm) -> List.NoDup (map fst (SwapForm.set k v pm)).
Proof.
  intros ND. rewrite set_keys. destruct (SwapForm.get k pm) eqn:G; [exact ND|].
  apply get_None in G.
  apply (Permutation.Permutation_NoDup (l := k :: map fst pm)).
  - apply Permutation_cons_append.
  - now constructor.
Qed.

(** [record], case by case: a name that [priceMap] inherits and does not
    own is never written. *)
Lemma record_cases (pm : SwapForm.PriceMap) (item : SwapForm.Item) :
  SwapForm.record pm item =
    if SwapForm.usable item then
      match SwapForm.get (SwapForm.currency item) pm with
      | Some stored =>
          if SwapForm.later (SwapForm.date item) (SwapForm.date stored)
          then SwapForm.set (SwapForm.currency item) item pm else pm
      | None =>
          if Object.inherited (SwapForm.currency item) then pm
          else SwapForm.set (SwapForm.currency item) item pm
      end
    else pm.
Proof.
  unfold SwapForm.record, Object.get.
  destruct (SwapForm.usable item); [|reflexivity].
  destruct (SwapForm.get (SwapForm.currency item) pm) as [stored|]; [reflexivity|].
  destruct (Object.inherited (SwapForm.currency item)); [|reflexivity].
  simpl. now destruct (SwapForm.date item).
Qed.

Lemma record_NoDup (pm : SwapForm.PriceMap) (item : SwapForm.Item) :
  List.NoDup (map fst pm) -> List.NoDup (map fst (SwapForm.record pm item)).
Proof.
  intros ND. rewrite record_cases.
  destruct (SwapForm.usable item); [|exact ND].
  destruct (SwapForm.get (SwapForm.currency item) pm) as [stored|].
  - destruct (SwapForm.later _ _); [now apply set_NoDup|exact ND].
  - destruct (Object.inherited _); [exact ND|now apply set_NoDup].
Qed.

Lemma collect_snoc (data : list SwapForm.Item) (item : SwapForm.Item) :
  SwapForm.collect (data ++ [item]) = SwapForm.record (SwapForm.collect data) item.
Proof. unfold SwapForm.collect. now rewrite fold_left_app. Qed.

Lemma collect_app (l1 l2 : list SwapForm.Item) :
  SwapForm.collect (l1 ++ l2) = fold_left SwapForm.record l2 (SwapForm.collect l1).
Proof. unfold SwapForm.collect. now rewrite fold_left_app. Qed.

Lemma collect_NoDup (data : list SwapForm.Item) :
  List.NoDup (map fst (SwapForm.collect data)).
Proof.
  induction data as [|item data IH] using rev_ind.
  - constructor.
  - rewrite collect_snoc. now apply record_NoDup.
Qed.

(** [priceMap] never owns a property under a name of [Object.prototype]. *)
Lemma collect_own (data : list SwapForm.Item) (key : string) (v : SwapForm.Item) :
  SwapForm.get key (SwapForm.collect data) = Some v -> Object.inherited key = false.
Proof.
  revert v. induction data as [|x data IH] using rev_ind; intros v.
  - discriminate.
  - rewrite collect_snoc, record_cases.
    destruct (SwapForm.usable x); [|apply IH].
    destruct (String.eqb_spec key (SwapForm.currency x)) as [->|N].
    + destruct (SwapForm.get (SwapForm.currency x) (SwapForm.collect data))
        as [s|] eqn:G.
      * intros _. exact (IH s eq_refl).
      * destruct (Object.inherited (SwapForm.currency x)); [|reflexivity].
        rewrite G. discriminate.
    + destruct (SwapForm.get (SwapForm.currency x) (SwapForm.collect data)) as [s|];
        [destruct (SwapForm.later _ _)|destruct (Object.inherited (SwapForm.currency x))];
        rewrite ?get_set_ne by assumption; apply IH.
Qed.

Lemma held_skip (data : list SwapForm.Item) (key : string)
    (entry : option SwapForm.Item) (x : SwapForm.Item) :
  held data key entry ->
  (SwapForm.usable x = true -> SwapForm.currency x = key ->
   exists v, entry = Some v /\
             SwapForm.later (SwapForm.date x) (SwapForm.date v) = false) ->
  held (data ++ [x]) key entry.
Proof.
  intros H Hx. destruct entry as [v|]; simpl in *.
  - destruct H as (Hu & Hc & l1 & l2 & -> & H1 & H2).
    split; [exact Hu|]. split; [exact Hc|].
    exists l1, (l2 ++ [x]). rewrite <- List.app_assoc.
    split; [reflexivity|]. split; [exact H1|].
    intros o Ho Uo Co. apply List.in_app_or in Ho. destruct Ho as [Ho|[<-|[]]].
    + now apply H2.
    + destruct (Hx Uo Co) as (v' & [= <-] & L). exact L.
  - intros o Ho Uo Co. apply List.in_app_or in Ho. destruct Ho as [Ho|[<-|[]]].
    + now apply (H o).
    + destruct (Hx Uo Co) as (v' & E & _). discriminate E.
Qed.

Lemma later_trans_false (a b c : option Z) :
  SwapForm.later a b = false -> SwapForm.later c b = true ->
  SwapForm.later a c = false /\ a <> c.
Proof.
  destruct a as [x|], b as [y|], c as [z|]; simpl; try discriminate;
    intros H1 H2; (split; [|try discriminate]); try reflexivity.
  - apply Z.ltb_ge in H1. apply Z.ltb_lt in H2. apply Z.ltb_ge. lia.
  - apply Z.ltb_ge in H1. apply Z.ltb_lt in H2. intros [= ->]. lia.
Qed.

Lemma later_irrefl (a : option Z) : SwapForm.later a a = false.
Proof. destruct a; simpl; [apply Z.ltb_irrefl|reflexivity]. Qed.

Lemma later_undated (a : option Z) : SwapForm.later a None = false.
Proof. now destruct a. Qed.

Lemma held_replace (data : list SwapForm.Item) (entry : option SwapForm.Item)
    (x : SwapForm.Item) :
  held data (SwapForm.currency x) entry ->
  SwapForm.usable x = true ->
  (entry = None -> Object.inherited (SwapForm.currency x) = false) ->
  (forall s, entry = Some s ->
             SwapForm.later (SwapForm.date x) (SwapForm.date s) = true) ->
  held (data ++ [x]) (SwapForm.currency x) (Some x).
Proof.
  intros H Ux Hn Hl. simpl. split; [exact Ux|]. split; [reflexivity|].
  exists data, []. split; [reflexivity|]. split; [|intros o []].
  intros o Ho Uo Co. destruct entry as [s|]; simpl in H.
  - destruct H as (_ & _ & l1 & l2 & -> & H1 & H2).
    specialize (Hl s eq_refl).
    apply (later_trans_false _ (SwapForm.date s)); [|exact Hl].
    apply List.in_app_or in Ho. destruct Ho as [Ho|[<-|Ho]].
    + now apply H1.
    + apply later_irrefl.
    + now apply H2.
  - exfalso. rewrite (H o Ho Uo Co) in Hn. now specialize (Hn eq_refl).
Qed.

Lemma collect_held (data : list SwapForm.Item) (key : string) :
  held data key (SwapForm.get key (SwapForm.collect data)).
Proof.
  induction data as [|x data IH] using rev_ind.
  - simpl. intros o [].
  - rewrite collect_snoc, record_cases.
    destruct (SwapForm.usable x) eqn:Ux.
    + destruct (String.eqb_spec key (SwapForm.currency x)) as [->|N].
      * destruct (SwapForm.get (SwapForm.currency x) (SwapForm.collect data))
          as [s|] eqn:G.
        -- destruct (SwapForm.later (SwapForm.date x) (SwapForm.date s)) eqn:L.
           ++ rewrite get_set_eq. apply (held_replace data (Some s)); auto.
              ** discriminate.
              ** now intros s' [= <-].
           ++ rewrite G. apply held_skip; [exact IH|].
              intros _ _. now exists s.
        -- destruct (Object.inherited (SwapForm.currency x)) eqn:I.
           ++ rewrite G. simpl. intros o _ _ _. exact I.
           ++ rewrite get_set_eq. apply (held_replace data None); auto.
              discriminate.
      * assert (held (data ++ [x]) key (SwapForm.get key (SwapForm.collect data)))
          by (apply held_skip; [exact IH|]; intros _ C; now symmetry in C).
        destruct (SwapForm.get (SwapForm.currency x) (SwapForm.collect data))
          as [s|];
          [destruct (SwapForm.later _ _)
          |destruct (Object.inherited (SwapForm.currency x))];
          rewrite ?get_set_ne by assumption; assumption.
    + apply held_skip; [exact IH|]. intros U. congruence.
Qed.

Lemma filter_split_perm {A : Type} (f : A -> bool) (l : list A) :
  Permutation (List.filter f l ++ List.filter (fun x => negb (f x)) l) l.
Proof.
  induction l as [|x l IH]; simpl.
  - constructor.
  - destruct (f x); simpl.
    + now constructor.
    + symmetry. apply Permutation_cons_app. now symmetry.
Qed.

Lemma Object_values_perm (pm : SwapForm.PriceMap) :
  Permutation (SwapForm.Object_values pm) (map snd pm).
Proof.
  unfold SwapForm.Object_values. apply Permutation_map.
  rewrite Array_sort_perm. apply filter_split_perm.
Qed.

Lemma fetchPrices_perm (localeCompare : string -> string -> Z)
    (data : list SwapForm.Item) :
  Permutation (SwapForm.fetchPrices localeCompare data)
    (map (fun kv => SwapForm.withPrice (snd kv)) (SwapForm.collect data)).
Proof.
  unfold SwapForm.fetchPrices. rewrite Array_sort_perm, Object_values_perm.
  now rewrite List.map_map.
Qed.

Lemma collect_entry (data : list SwapForm.Item) (k : string) (v : SwapForm.Item) :
  In (k, v) (SwapForm.collect data) <-> k = SwapForm.currency v /\ canonical data v.
Proof.
  rewrite <- (get_In k v _ (collect_NoDup data)). unfold canonical. split.
  - intros G. pose proof (collect_held data k) as H. rewrite G in H.
    destruct H as (_ & <- & _). now split.
  - now intros [-> G].
Qed.

Lemma fetchPrices_In (localeCompare : string -> string -> Z)
    (data : list SwapForm.Item) (t : SwapForm.Token) :
  In t (SwapForm.fetchPrices localeCompare data) <->
  exists v, canonical data v /\ t = SwapForm.withPrice v.
Proof.
  split.
  - intros H. apply (Permutation_in _ (fetchPrices_perm localeCompare data)) in H.
    apply List.in_map_iff in H. destruct H as ([k v] & <- & H).
    apply collect_entry in H. exists v. now split.
  - intros (v & Hv & ->).
    apply (Permutation_in _ (Permutation_sym (fetchPrices_perm localeCompare data))).
    apply List.in_map_iff. exists (SwapForm.currency v, v). split; [reflexivity|].
    now apply collect_entry.
Qed.

Lemma fetchPrices_currencies (localeCompare : string -> string -> Z)
    (data : list SwapForm.Item) :
  Permutation (map SwapForm.token_currency (SwapForm.fetchPrices localeCompare data))
    (map fst (SwapForm.collect data)).
Proof.
  rewrite (fetchPrices_perm localeCompare data), List.map_map.
  erewrite List.map_ext_in; [reflexivity|].
  intros [k v] H. apply collect_entry in H. simpl. symmetry. apply H.
Qed.

(** The canonical item of a currency: usable, in the feed, and no usable
    item of its currency is later. *)
Lemma canonical_freshest (data : list SwapForm.Item) (v : SwapForm.Item) :
  canonical data v ->
  In v data /\ SwapForm.usable v = true /\
  forall o, In o data -> SwapForm.usable o = true ->
            SwapForm.currency o = SwapForm.currency v ->
            SwapForm.later (SwapForm.date o) (SwapForm.date v) = false.
Proof.
  unfold canonical. intros G.
  pose proof (collect_held data (SwapForm.currency v)) as H. rewrite G in H.
  destruct H as (Hu & _ & l1 & l2 & -> & H1 & H2).
  split; [apply List.in_elt|]. split; [exact Hu|].
  intros o Ho Uo Co. apply List.in_app_or in Ho. destruct Ho as [Ho|[<-|Ho]].
  - now apply H1.
  - apply later_irrefl.
  - now apply H2.
Qed.

Lemma canonical_exists (data : list SwapForm.Item) (o : SwapForm.Item) :
  In o data -> SwapForm.usable o = true ->
  Object.inherited (SwapForm.currency o) = false ->
  exists v, canonical data v /\ SwapForm.currency v = SwapForm.currency o.
Proof.
  intros Ho Uo I. pose proof (collect_held data (SwapForm.currency o)) as H.
  destruct (SwapForm.get (SwapForm.currency o) (SwapForm.collect data)) as [v|] eqn:G.
  - destruct H as (_ & Hc & _). exists v. split; [|exact Hc].
    unfold canonical. now rewrite Hc.
  - exfalso. rewrite (H o Ho Uo eq_refl) in I. discriminate I.
Qed.

Lemma canonical_own (data : list SwapForm.Item) (v : SwapForm.Item) :
  canonical data v -> Object.inherited (SwapForm.currency v) = false.
Proof. apply collect_own. Qed.


(** *** The first usable observation of a symbol *)

Lemma first_usable_exists (data : list SwapForm.Item) (o : SwapForm.Item) :
  In o data -> SwapForm.usable o = true ->
  exists first, first_usable data (SwapForm.currency o) first.
Proof.
  induction data as [|x data IH]; intros Ho Uo; [destruct Ho|].
  destruct (SwapForm.usable x) eqn:Ux.
  - destruct (String.eqb_spec (SwapForm.currency x) (SwapForm.currency o)) as [E|N].
    + exists x, [], data. split; [reflexivity|]. split; [exact Ux|].
      split; [exact E|]. intros o' [].
    + destruct Ho as [->|Ho]; [contradiction|].
      destruct (IH Ho Uo) as (first & l1 & l2 & -> & U & C & H).
      exists first, (x :: l1), l2. split; [reflexivity|]. split; [exact U|].
      split; [exact C|]. intros o' [<-|Ho'] Uo'; [exact N|now apply H].
  - destruct Ho as [->|Ho]; [congruence|].
    destruct (IH Ho Uo) as (first & l1 & l2 & -> & U & C & H).
    exists first, (x :: l1), l2. split; [reflexivity|]. split; [exact U|].
    split; [exact C|]. intros o' [<-|Ho'] Uo'; [congruence|now apply H].
Qed.

Lemma fold_record_invariant (I : SwapForm.PriceMap -> Prop)
    (l : list SwapForm.Item) (pm : SwapForm.PriceMap) :
  (forall pm x, I pm -> I (SwapForm.record pm x)) ->
  I pm -> I (fold_left SwapForm.record l pm).
Proof.
  intros Hstep. revert pm. induction l as [|x l IH]; intros pm H; simpl.
  - exact H.
  - apply IH, Hstep, H.
Qed.

(** A stored item without a valid date is never replaced. *)
Lemma record_undated_stays (key : string) (s : SwapForm.Item)
    (pm : SwapForm.PriceMap) (x : SwapForm.Item) :
  SwapForm.date s = None ->
  SwapForm.get key pm = Some s -> SwapForm.get key (SwapForm.record pm x) = Some s.
Proof.
  intros D G. rewrite record_cases.
  destruct (SwapForm.usable x); [|exact G].
  destruct (String.eqb_spec key (SwapForm.currency x)) as [<-|N].
  - now rewrite G, D, later_undated.
  - destruct (SwapForm.get (SwapForm.currency x) pm) as [s'|];
      [destruct (SwapForm.later _ _)
      |destruct (Object.inherited (SwapForm.currency x))];
      rewrite ?get_set_ne by assumption; exact G.
Qed.

(** A stored item with a valid date is replaced by such items only. *)
Lemma record_dated_stays (key : string) (pm : SwapForm.PriceMap) (x : SwapForm.Item) :
  (exists s t, SwapForm.get key pm = Some s /\ SwapForm.date s = Some t) ->
  exists s t, SwapForm.get key (SwapForm.record pm x) = Some s /\
              SwapForm.date s = Some t.
Proof.
  intros (s & t & G & D). rewrite record_cases.
  destruct (SwapForm.usable x); [|now exists s, t].
  destruct (String.eqb_spec key (SwapForm.currency x)) as [<-|N].
  - rewrite G, D.
    destruct (SwapForm.later (SwapForm.date x) (Some t)) eqn:L; [|now exists s, t].
    rewrite get_set_eq. destruct (SwapForm.date x) as [u|] eqn:Dx; [|discriminate L].
    now exists x, u.
  - exists s, t. split; [|exact D].
    destruct (SwapForm.get (SwapForm.currency x) pm) as [s'|];
      [destruct (SwapForm.later _ _)
      |destruct (Object.inherited (SwapForm.currency x))];
      rewrite ?get_set_ne by assumption; exact G.
Qed.

(** What [priceMap] holds for a symbol is decided by the symbol's first
    usable observation: without a valid date it stays for good; with one,
    the item held has a valid date too. *)
Lemma first_usable_stored (data : list SwapForm.Item) (key : string)
    (first : SwapForm.Item) :
  first_usable data key first -> Object.inherited key = false ->
  match SwapForm.date first with
  | None => SwapForm.get key (SwapForm.collect data) = Some first
  | Some _ =>
      exists s t, SwapForm.get key (SwapForm.collect data) = Some s /\
                  SwapForm.date s = Some t
  end.
Proof.
  intros (l1 & l2 & -> & U & C & H) I. rewrite collect_app. simpl.
  assert (G1 : SwapForm.get key (SwapForm.record (SwapForm.collect l1) first)
               = Some first).
  { rewrite record_cases, U, C.
    pose proof (collect_held l1 key) as Hh.
    destruct (SwapForm.get key (SwapForm.collect l1)) as [s|].
    - destruct Hh as (Us & Cs & l & l' & -> & _). exfalso.
      apply (H s); [apply List.in_elt|exact Us|exact Cs].
    - rewrite I. apply get_set_eq. }
  destruct (SwapForm.date first) as [t|] eqn:D.
  - apply (fold_record_invariant
             (fun pm => exists s t, SwapForm.get key pm = Some s /\
                                    SwapForm.date s = Some t)).
    + intros pm x. apply record_dated_stays.
    + now exists first, t.
  - apply (fold_record_invariant (fun pm => SwapForm.get key pm = Some first)).
    + intros pm x. now apply record_undated_stays.
    + exact G1.
Qed.

Lemma usable_price (o : SwapForm.Item) :
  SwapForm.usable o = true ->
  Number.gt (Number.parseFloat (SwapForm.price o)) 0%float = true.
Proof. unfold SwapForm.usable. now intros [_ H]%andb_true_iff. Qed.

Lemma usable_iff (o : SwapForm.Item) :
  SwapForm.usable o = true <->
  Number.gt (Number.parseFloat (SwapForm.price o)) 0%float = true.
Proof.
  unfold SwapForm.usable. rewrite andb_true_iff, negb_true_iff. split.
  - now intros [_ H].
  - intros H. split; [|exact H].
    destruct (String.eqb_spec (SwapForm.price o) "") as [E|_]; [|reflexivity].
    rewrite E in H. discriminate H.
Qed.

(** C2, as amended: the normalizer's output has one record per symbol, for
    exactly the symbols that have an observation with a price greater than
    0 and that are not the name of a member of [Object.prototype]; the
    record of a symbol carries the price of one of its observations with a
    price greater than 0: the first such observation when that one has no
    valid date (nothing displaces it), and otherwise the one with the
    maximum timestamp among those with a valid date; an observation whose
    price is 0 or negative is never selected, and alone it leaves its
    symbol out. *)
Theorem freshest_valid_observation :
  forall (localeCompare : string -> string -> Z) (data : list SwapForm.Item),
    List.NoDup (map SwapForm.token_currency (SwapForm.fetchPrices localeCompare data)) /\
    (forall s : string,
       In s (map SwapForm.token_currency (SwapForm.fetchPrices localeCompare data)) <->
       Object.inherited s = false /\
       exists o, In o data /\ SwapForm.usable o = true /\ SwapForm.currency o = s) /\
    (forall t : SwapForm.Token,
       In t (SwapForm.fetchPrices localeCompare data) ->
       Number.gt (SwapForm.token_price t) 0%float = true /\
       exists o first : SwapForm.Item,
         In o data /\ SwapForm.usable o = true /\
         t = SwapForm.mkToken (SwapForm.currency o)
               (Number.parseFloat (SwapForm.price o)) /\
         first_usable data (SwapForm.currency o) first /\
         match SwapForm.date first with
         | None => o = first
         | Some _ =>
             exists d : Z,
               SwapForm.date o = Some d /\
               forall o', In o' data -> SwapForm.usable o' = true ->
                          SwapForm.currency o' = SwapForm.currency o ->
                          forall d', SwapForm.date o' = Some d' -> d' <= d
         end) /\
    SwapForm.fetchPrices localeCompare
      [SwapForm.mkItem "X" "1" (Some 1); SwapForm.mkItem "X" "2" (Some 2)]
    = [SwapForm.mkToken "X" 2%float] /\
    SwapForm.fetchPrices localeCompare
      [SwapForm.mkItem "X" "2" (Some 2); SwapForm.mkItem "X" "1" (Some 1)]
    = [SwapForm.mkToken "X" 2%float] /\
    SwapForm.fetchPrices localeCompare
      [SwapForm.mkItem "X" "1" None; SwapForm.mkItem "X" "2" (Some 5);
       SwapForm.mkItem "X" "3" (Some 9)]
    = [SwapForm.mkToken "X" 1%float] /\
    SwapForm.fetchPrices localeCompare
      [SwapForm.mkItem "X" "1" (Some 5); SwapForm.mkItem "X" "2" None;
       SwapForm.mkItem "X" "3" (Some 9)]
    = [SwapForm.mkToken "X" 3%float] /\
    (forall o : SwapForm.Item,
       SwapForm.usable o = true <->
       Number.gt (Number.parseFloat (SwapForm.price o)) 0%float = true) /\
    SwapForm.fetchPrices localeCompare [SwapForm.mkItem "X" "0" (Some 1)] = [] /\
    SwapForm.fetchPrices localeCompare [SwapForm.mkItem "X" "-3" (Some 1)] = [] /\
    SwapForm.fetchPrices localeCompare [SwapForm.mkItem "X" "n/a" (Some 1)] = [].
Proof.
  intros localeCompare data.
  split; [|split; [|split; [|split; [|split; [|split; [|split; [|split]]]]]]];
    [| | | vm_compute; reflexivity | vm_compute; reflexivity
     | vm_compute; reflexivity | vm_compute; reflexivity
     | exact usable_iff | repeat split; vm_compute; reflexivity].
  - apply (Permutation.Permutation_NoDup
             (Permutation_sym (fetchPrices_currencies localeCompare data))).
    apply collect_NoDup.
  - intros s. split.
    + intros H. apply List.in_map_iff in H. destruct H as (t & <- & H).
      apply fetchPrices_In in H. destruct H as (v & Hv & ->).
      split; [exact (canonical_own _ _ Hv)|].
      exists v. destruct (canonical_freshest _ _ Hv) as (Hi & Hu & _).
      now repeat split.
    + intros (I & o & Ho & Uo & <-).
      destruct (canonical_exists data o Ho Uo I) as (v & Hv & <-).
      apply List.in_map_iff. exists (SwapForm.withPrice v). split; [reflexivity|].
      apply fetchPrices_In. now exists v.
  - intros t H. apply fetchPrices_In in H. destruct H as (v & Hv & ->).
    destruct (canonical_freshest _ _ Hv) as (Hi & Hu & Hl).
    split; [now apply usable_price|].
    destruct (first_usable_exists data v Hi Hu) as (first & Hf).
    exists v, first. split; [exact Hi|]. split; [exact Hu|]. split; [reflexivity|].
    split; [exact Hf|].
    pose proof (first_usable_stored _ _ _ Hf (canonical_own _ _ Hv)) as Hs.
    unfold canonical in Hv.
    destruct (SwapForm.date first) as [t0|].
    + destruct Hs as (s & d & Gs & Ds). rewrite Hv in Gs. injection Gs as <-.
      exists d. split; [exact Ds|].
      intros o' Ho' Uo' Co' d' E'. specialize (Hl o' Ho' Uo' Co').
      rewrite E', Ds in Hl. simpl in Hl. now apply Z.ltb_ge in Hl.
    + rewrite Hv in Hs. now injection Hs.
Qed.

Lemma freshest_valid_observation_witness :
  Number.gt (SwapForm.token_price (SwapForm.mkToken "X" 2%float)) 0%float = true /\
  exists o first : SwapForm.Item,
    In o [SwapForm.mkItem "X" "1" (Some 1); SwapForm.mkItem "X" "2" (Some 2)] /\
    SwapForm.usable o = true /\
    SwapForm.mkToken "X" 2%float
    = SwapForm.mkToken (SwapForm.currency o) (Number.parseFloat (SwapForm.price o)) /\
    first_usable [SwapForm.mkItem "X" "1" (Some 1); SwapForm.mkItem "X" "2" (Some 2)]
      (SwapForm.currency o) first /\
    match SwapForm.date first with
    | None => o = first
    | Some _ =>
        exists d : Z,
          SwapForm.date o = Some d /\
          forall o',
            In o' [SwapForm.mkItem "X" "1" (Some 1); SwapForm.mkItem "X" "2" (Some 2)] ->
            SwapForm.usable o' = true ->
            SwapForm.currency o' = SwapForm.currency o ->
            forall d', SwapForm.date o' = Some d' -> d' <= d
    end.
Proof.
  apply (proj1 (proj2 (proj2 (freshest_valid_observation (fun _ _ => 0)
           [SwapForm.mkItem "X" "1" (Some 1); SwapForm.mkItem "X" "2" (Some 2)])))).
  vm_compute. left. reflexivity.
Defined.

(** The claim C2 fails in two ways. An observation without a valid date
    that comes first is never displaced: the record kept is not the
    observation with the maximum timestamp. And a symbol that names a
    member of [Object.prototype] is left out although it has an
    observation with a price greater than 0. *)
Lemma fetchPrices_not_freshest :
  (forall localeCompare : string -> string -> Z,
     SwapForm.fetchPrices localeCompare
       [SwapForm.mkItem "X" "1" None; SwapForm.mkItem "X" "2" (Some 5)]
     = [SwapForm.mkToken "X" 1%float]) /\
  SwapForm.usable (SwapForm.mkItem "X" "2" (Some 5)) = true /\
  (forall localeCompare : string -> string -> Z,
     SwapForm.fetchPrices localeCompare [SwapForm.mkItem "constructor" "1" (Some 1)]
     = []) /\
  Number.gt (Number.parseFloat (SwapForm.price (SwapForm.mkItem "constructor" "1" (Some 1))))
    0%float = true.
Proof.
  split; [|split; [|split]].
  - intros localeCompare. vm_compute. reflexivity.
  - vm_compute. reflexivity.
  - intros localeCompare. vm_compute. reflexivity.
  - vm_compute. reflexivity.
Qed.







(** ** Determinism *)

Lemma NoDup_map_inv_list {A B : Type} (f : A -> B) (l : list A) :
  List.NoDup (map f l) -> List.NoDup l.
Proof.
  induction l as [|x l IH]; simpl; intros H.
  - constructor.
  - inversion H as [|? ? Hx Hl]; subst. constructor.
    + intros Hin. apply Hx. now apply List.in_map.
    + now apply IH.
Qed.

Lemma canonical_tokens_incl (data data' : list SwapForm.Item) (v : SwapForm.Item) :
  ties_agree data -> Permutation data data' -> canonical data v ->
  exists v', canonical data' v' /\ SwapForm.withPrice v' = SwapForm.withPrice v.
Proof.
  intros HT HP Hv.
  destruct (canonical_freshest _ _ Hv) as (Hi & Hu & Hl).
  destruct (canonical_exists data' v (Permutation_in _ HP Hi) Hu (canonical_own _ _ Hv))
    as (v' & Hv' & Ec).
  destruct (canonical_freshest _ _ Hv') as (Hi' & Hu' & Hl').
  apply (Permutation_in _ (Permutation_sym HP)) in Hi'.
  exists v'. split; [exact Hv'|].
  unfold SwapForm.withPrice. rewrite Ec. f_equal.
  apply HT; try assumption.
  - now apply Hl.
  - apply Hl'; [now apply (Permutation_in _ HP)|exact Hu|now symmetry].
Qed.

Lemma ties_agree_perm (data data' : list SwapForm.Item) :
  Permutation data data' -> ties_agree data -> ties_agree data'.
Proof.
  intros HP HT a b Ha Hb.
  apply HT; apply (Permutation_in _ (Permutation_sym HP)); assumption.
Qed.

Lemma tokens_NoDup (data : list SwapForm.Item) :
  List.NoDup (map (fun kv => SwapForm.withPrice (snd kv)) (SwapForm.collect data)).
Proof.
  apply (NoDup_map_inv_list SwapForm.token_currency). rewrite List.map_map.
  erewrite List.map_ext_in; [apply (collect_NoDup data)|].
  intros [k v] H. apply collect_entry in H. simpl. symmetry. apply H.
Qed.

Lemma tokens_In (data : list SwapForm.Item) (t : SwapForm.Token) :
  In t (map (fun kv => SwapForm.withPrice (snd kv)) (SwapForm.collect data)) <->
  exists v, canonical data v /\ t = SwapForm.withPrice v.
Proof.
  rewrite List.in_map_iff. split.
  - intros ([k v] & <- & H). apply collect_entry in H. exists v. now split.
  - intros (v & Hv & ->). exists (SwapForm.currency v, v). split; [reflexivity|].
    now apply collect_entry.
Qed.

(** The currency of a listed token is a symbol of the feed. *)
Lemma fetchPrices_symbol (localeCompare : string -> string -> Z)
    (data : list SwapForm.Item) (t : SwapForm.Token) :
  In t (SwapForm.fetchPrices localeCompare data) ->
  In (SwapForm.token_currency t) (symbols data).
Proof.
  intros H. apply fetchPrices_In in H. destruct H as (v & Hv & ->).
  destruct (canonical_freshest _ _ Hv) as (Hi & _ & _).
  unfold symbols. simpl. now apply List.in_map.
Qed.

(** With a comparator that is a total preorder on the symbols of the feed,
    the tokens come out sorted. *)
Lemma fetchPrices_before (localeCompare : string -> string -> Z)
    (data : list SwapForm.Item) :
  (forall a b, In a (symbols data) -> In b (symbols data) ->
               localeCompare a b <= 0 \/ localeCompare b a <= 0) ->
  (forall a b c, In a (symbols data) -> In b (symbols data) -> In c (symbols data) ->
                 localeCompare a b <= 0 -> localeCompare b c <= 0 ->
                 localeCompare a c <= 0) ->
  StronglySorted (before (SwapForm.byCurrency localeCompare))
    (SwapForm.fetchPrices localeCompare data).
Proof.
  intros Htotal Htrans. unfold SwapForm.fetchPrices.
  apply (Array_sort_sorted_on (SwapForm.byCurrency localeCompare)
           (fun t => In (SwapForm.token_currency t) (symbols data))).
  - intros a b Ha Hb. now apply Htotal.
  - intros a b c Ha Hb Hc. now apply Htrans.
  - apply List.Forall_forall. intros t Ht.
    apply (fetchPrices_symbol localeCompare). unfold SwapForm.fetchPrices.
    now apply Array_sort_In.
Qed.

(** C9, as amended: the output of [fetchPrices] is a function of its input,
    and it does not depend on the order in which the observations arrive
    provided that [localeCompare] is a total order on the symbols of the
    feed and that usable observations of one symbol which tie (neither is
    later than the other) carry the same price. *)
Theorem fetchPrices_order_independent
    (localeCompare : string -> string -> Z) (data data' : list SwapForm.Item) :
  (forall a b, In a (symbols data) -> In b (symbols data) ->
               localeCompare a b <= 0 \/ localeCompare b a <= 0) ->
  (forall a b c, In a (symbols data) -> In b (symbols data) -> In c (symbols data) ->
                 localeCompare a b <= 0 -> localeCompare b c <= 0 ->
                 localeCompare a c <= 0) ->
  (forall a b, In a (symbols data) -> In b (symbols data) ->
               localeCompare a b <= 0 -> localeCompare b a <= 0 -> a = b) ->
  ties_agree data ->
  Permutation data data' ->
  SwapForm.fetchPrices localeCompare data = SwapForm.fetchPrices localeCompare data'.
Proof.
  intros Htotal Htrans Hanti HT HP.
  assert (HS : forall a, In a (symbols data') -> In a (symbols data)).
  { intros a. apply Permutation_in. unfold symbols.
    now apply Permutation_map, Permutation_sym. }
  apply (sorted_perm_unique (SwapForm.byCurrency localeCompare)).
  - now apply fetchPrices_before.
  - apply fetchPrices_before.
    + intros a b Ha Hb. apply Htotal; now apply HS.
    + intros a b c Ha Hb Hc. apply Htrans; now apply HS.
  - rewrite !fetchPrices_perm.
    apply Permutation.NoDup_Permutation; try apply tokens_NoDup.
    intros t. rewrite !tokens_In. split.
    + intros (v & Hv & ->).
      destruct (canonical_tokens_incl data data' v HT HP Hv) as (v' & Hv' & E).
      exists v'. now split.
    + intros (v & Hv & ->).
      destruct (canonical_tokens_incl data' data v
                  (ties_agree_perm _ _ HP HT) (Permutation_sym HP) Hv)
        as (v' & Hv' & E).
      exists v'. now split.
  - intros a b Ha Hb Hab Hba.
    assert (E : SwapForm.token_currency a = SwapForm.token_currency b).
    { apply Hanti; try assumption;
        now apply (fetchPrices_symbol localeCompare). }
    apply fetchPrices_In in Ha, Hb.
    destruct Ha as (va & Hva & ->), Hb as (vb & Hvb & ->). simpl in E.
    unfold canonical in Hva, Hvb. rewrite E in Hva. rewrite Hva in Hvb.
    now injection Hvb as ->.
Qed.

Lemma fetchPrices_order_independent_witness :
  SwapForm.fetchPrices
    (fun a b => if String.eqb a b then 0 else if String.eqb a "BTC" then -1 else 1)
    [SwapForm.mkItem "ETH" "1645.5" (Some 1); SwapForm.mkItem "BTC" "26002.5" (Some 1);
     SwapForm.mkItem "ETH" "1650" (Some 2)]
  = SwapForm.fetchPrices
      (fun a b => if String.eqb a b then 0 else if String.eqb a "BTC" then -1 else 1)
      [SwapForm.mkItem "ETH" "1650" (Some 2); SwapForm.mkItem "BTC" "26002.5" (Some 1);
       SwapForm.mkItem "ETH" "1645.5" (Some 1)].
Proof.
  apply fetchPrices_order_independent.
  - intros a b Ha Hb. simpl in Ha, Hb.
    destruct Ha as [<-|[<-|[<-|[]]]], Hb as [<-|[<-|[<-|[]]]]; simpl; lia.
  - intros a b c Ha Hb Hc. simpl in Ha, Hb, Hc.
    destruct Ha as [<-|[<-|[<-|[]]]], Hb as [<-|[<-|[<-|[]]]],
      Hc as [<-|[<-|[<-|[]]]]; simpl; lia.
  - intros a b Ha Hb. simpl in Ha, Hb.
    destruct Ha as [<-|[<-|[<-|[]]]], Hb as [<-|[<-|[<-|[]]]]; simpl;
      intros H1 H2; try reflexivity; lia.
  - intros a b Ha Hb. simpl in Ha, Hb.
    destruct Ha as [<-|[<-|[<-|[]]]], Hb as [<-|[<-|[<-|[]]]];
      intros _ _ Ec L1 L2; try reflexivity;
      try discriminate Ec; cbv in L1, L2; discriminate.
  - exact (Permutation_rev
             [SwapForm.mkItem "ETH" "1645.5" (Some 1);
              SwapForm.mkItem "BTC" "26002.5" (Some 1);
              SwapForm.mkItem "ETH" "1650" (Some 2)]).
Defined.

(** The claim C9 fails when two observations of a symbol tie: the same two
    observations, in the two possible orders, give different outputs. *)
Lemma fetchPrices_order_dependent :
  Permutation
    [SwapForm.mkItem "X" "1" (Some 5); SwapForm.mkItem "X" "2" (Some 5)]
    [SwapForm.mkItem "X" "2" (Some 5); SwapForm.mkItem "X" "1" (Some 5)] /\
  (forall localeCompare : string -> string -> Z,
     SwapForm.fetchPrices localeCompare
       [SwapForm.mkItem "X" "1" (Some 5); SwapForm.mkItem "X" "2" (Some 5)]
     <> SwapForm.fetchPrices localeCompare
          [SwapForm.mkItem "X" "2" (Some 5); SwapForm.mkItem "X" "1" (Some 5)]).
Proof.
  split; [apply perm_swap|].
  intros localeCompare H.
  apply (f_equal (fun l => match l with
                           | t :: _ => PrimFloat.eqb (SwapForm.token_price t) 1%float
                           | [] => false
                           end)) in H.
  vm_compute in H. discriminate H.
Qed.

(** * Further properties *)

(** ** What the exchange calculation returns *)

Lemma append_nonempty_l (a b : string) : a <> "" -> a +:+ b <> "".
Proof. destruct a; [easy|discriminate]. Qed.

Lemma append_nonempty_r (a b : string) : b <> "" -> a +:+ b <> "".
Proof. destruct a; [easy|discriminate]. Qed.

Lemma toString_positive_nonempty (x : Number.number) (m : positive) (e : Z) :
  Number.toString_positive x m e <> "".
Proof.
  unfold Number.toString_positive.
  destruct (Number.shortest 17 x m e (Number.magnitude m e) 1) as [s n].
  pose proof (proj2 (decimal_digits s)) as Hd.
  cbv zeta.
  repeat match goal with |- (if ?c then _ else _) <> _ => destruct c end.
  - now apply append_nonempty_l.
  - apply append_nonempty_r. discriminate.
  - discriminate.
  - now apply append_nonempty_l.
  - apply append_nonempty_r. discriminate.
Qed.

Lemma toString_nonempty (x : Number.number) : Number.toString x <> "".
Proof.
  unfold Number.toString. destruct (Prim2SF x) as [s|[]| |s m e]; try discriminate.
  apply append_nonempty_r, toString_positive_nonempty.
Qed.

Lemma fixed_point_nonempty (n : Z) (f : nat) : Number.fixed_point n f <> "".
Proof.
  unfold Number.fixed_point. destruct f.
  - apply decimal_digits.
  - apply append_nonempty_l, decimal_digits.
Qed.

Lemma toFixed_nonempty (x : Number.number) (f : nat) : Number.toFixed x f <> "".
Proof.
  unfold Number.toFixed. destruct (Prim2SF x) as [s|[]| |s m e]; try discriminate.
  - apply fixed_point_nonempty.
  - apply append_nonempty_r.
    destruct (PrimFloat.leb _ _); [apply toString_nonempty|apply fixed_point_nonempty].
Qed.

Lemma SFeqb_refl_finite (s : bool) (m : positive) (e : Z) :
  SFeqb (S754_finite s m e) (S754_finite s m e) = true.
Proof.
  unfold SFeqb. simpl. rewrite Z.compare_refl, Pos.compare_cont_refl. now destruct s.
Qed.

(** A number greater than 0 is truthy. *)
Lemma gt_zero_truthy (x : Number.number) :
  Number.gt x 0%float = true -> Number.truthy x = true.
Proof.
  intros H. unfold Number.truthy, PrimFloat.is_zero, PrimFloat.is_nan.
  rewrite !FloatAxioms.eqb_spec.
  destruct (gt_zero_inv x H) as [(m & e & E)|E]; rewrite E.
  - now rewrite SFeqb_refl_finite.
  - reflexivity.
Qed.

Lemma parseFloat_gt_nonempty (amount : string) :
  Number.gt (Number.parseFloat amount) 0%float = true -> amount <> "".
Proof. intros H ->. discriminate H. Qed.

Lemma listed_price (localeCompare : string -> string -> Z)
    (data : list SwapForm.Item) (t : SwapForm.Token) :
  In t (SwapForm.fetchPrices localeCompare data) ->
  Number.gt (SwapForm.token_price t) 0%float = true.
Proof.
  intros H. apply fetchPrices_In in H. destruct H as (v & Hv & ->).
  apply usable_price. now apply canonical_freshest in Hv.
Qed.

Lemma calculateExchange_nonempty_iff (amount : string) (from to : option SwapForm.Token) :
  SwapForm.calculateExchange amount from to <> "" <->
  amount <> "" /\
  Number.gt (Number.parseFloat amount) 0%float = true /\
  exists f t, from = Some f /\ to = Some t /\
              Number.truthy (SwapForm.token_price f) = true /\
              Number.truthy (SwapForm.token_price t) = true.
Proof.
  unfold SwapForm.calculateExchange. rewrite gt_zero_negb.
  destruct from as [f|], to as [t|];
    try (split; [intros H; now contradiction H
                |intros (_ & _ & ? & ? & ? & ? & _); discriminate]).
  destruct (String.eqb_spec amount "") as [->|Ha]; simpl.
  { split; [intros H; now contradiction H|intros (H & _); now contradiction H]. }
  destruct (Number.truthy (SwapForm.token_price f)) eqn:Hf; simpl.
  2:{ split; [intros H; now contradiction H|].
      intros (_ & _ & f' & t' & [= <-] & _ & H & _). congruence. }
  destruct (Number.truthy (SwapForm.token_price t)) eqn:Ht; simpl.
  2:{ split; [intros H; now contradiction H|].
      intros (_ & _ & f' & t' & _ & [= <-] & _ & H). congruence. }
  destruct (Number.isNaN (Number.parseFloat amount)
            || Number.le (Number.parseFloat amount) 0%float); simpl.
  - split; [intros H; now contradiction H|intros (_ & H & _); discriminate H].
  - split; [|intros _; apply toFixed_nonempty].
    intros _. split; [exact Ha|]. split; [reflexivity|]. now exists f, t.
Qed.

(** [calculateExchange] returns a non-empty string exactly when the amount
    is non-empty and parses to a number greater than 0 and both tokens are
    there with prices that are neither 0 nor NaN; for two tokens that
    [fetchPrices] lists, exactly when the amount parses to a number greater
    than 0. *)
Theorem calculateExchange_nonempty :
  (forall (amount : string) (from to : option SwapForm.Token),
     SwapForm.calculateExchange amount from to <> "" <->
     amount <> "" /\
     Number.gt (Number.parseFloat amount) 0%float = true /\
     exists f t, from = Some f /\ to = Some t /\
                 Number.truthy (SwapForm.token_price f) = true /\
                 Number.truthy (SwapForm.token_price t) = true) /\
  (forall (localeCompare : string -> string -> Z) (data : list SwapForm.Item)
          (f t : SwapForm.Token) (amount : string),
     In f (SwapForm.fetchPrices localeCompare data) ->
     In t (SwapForm.fetchPrices localeCompare data) ->
     (SwapForm.calculateExchange amount (Some f) (Some t) <> "" <->
      Number.gt (Number.parseFloat amount) 0%float = true)).
Proof.
  split; [exact calculateExchange_nonempty_iff|].
  intros localeCompare data f t amount Hf Ht.
  rewrite calculateExchange_nonempty_iff. split.
  - now intros (_ & H & _).
  - intros H. split; [now apply parseFloat_gt_nonempty|]. split; [exact H|].
    exists f, t. repeat split; apply gt_zero_truthy;
      eapply listed_price; eassumption.
Qed.

Lemma calculateExchange_nonempty_witness :
  SwapForm.calculateExchange "2.5"
    (Some (SwapForm.mkToken "ETH" 1645.5%float))
    (Some (SwapForm.mkToken "ETH" 1645.5%float)) <> "".
Proof.
  apply (proj2 calculateExchange_nonempty (fun _ _ => 0)
           [SwapForm.mkItem "ETH" "1645.5" (Some 1)]
           (SwapForm.mkToken "ETH" 1645.5%float)
           (SwapForm.mkToken "ETH" 1645.5%float) "2.5").
  - vm_compute. left. reflexivity.
  - vm_compute. left. reflexivity.
  - reflexivity.
Defined.

(** ** Computed amounts are amounts the mask accepts *)

Lemma binary_round_aux_unsigned (mx ex : Z) (lx : location) :
  unsigned_sf (binary_round_aux prec emax false mx ex lx).
Proof.
  unfold binary_round_aux.
  destruct (shr_fexp prec emax mx ex lx) as [mrs' e'].
  destruct (shr_fexp prec emax _ e' loc_Exact) as [mrs'' e''].
  destruct (shr_m mrs''); simpl; try reflexivity.
  destruct (e'' <=? emax - prec); reflexivity.
Qed.

Lemma SFmul_unsigned (x y : spec_float) :
  unsigned_sf x -> unsigned_sf y -> unsigned_sf (SFmul prec emax x y).
Proof.
  destruct x as [[]|[]| |[] m1 e1], y as [[]|[]| |[] m2 e2]; simpl;
    intros Hx Hy; try discriminate; try reflexivity; try exact I.
  apply binary_round_aux_unsigned.
Qed.

Lemma SFdiv_unsigned (x y : spec_float) :
  unsigned_sf x -> unsigned_sf y -> unsigned_sf (SFdiv prec emax x y).
Proof.
  destruct x as [[]|[]| |[] m1 e1], y as [[]|[]| |[] m2 e2]; simpl;
    intros Hx Hy; try discriminate; try reflexivity; try exact I.
  destruct (SFdiv_core_binary prec emax (Z.pos m1) e1 (Z.pos m2) e2) as [[mz ez] lz].
  apply binary_round_aux_unsigned.
Qed.

Lemma gt_zero_unsigned (x : Number.number) :
  Number.gt x 0%float = true -> unsigned_sf (Prim2SF x).
Proof.
  intros H. destruct (gt_zero_inv x H) as [(m & e & E)|E]; now rewrite E.
Qed.

(** A number below [10^21] that is not negative is printed in fixed
    notation. *)
Lemma toFixed_notation_unsigned (x : Number.number) (f : nat) :
  f <> O -> unsigned_sf (Prim2SF x) ->
  Number.gt 1e21%float x = true ->
  fixed_notation f (Number.toFixed x f).
Proof.
  intros Hf Hs Hbig. unfold Number.gt in Hbig. rewrite ltb_spec in Hbig.
  unfold Number.toFixed.
  destruct (Prim2SF x) as [s|s| |s m e] eqn:E; simpl in Hs; subst;
    try discriminate Hbig.
  - now apply fixed_point_notation.
  - rewrite (abs_nonneg x m e E).
    rewrite <- E in Hbig. apply SFltb_SFleb in Hbig.
    rewrite <- leb_spec in Hbig. rewrite Hbig.
    simpl. now apply fixed_point_notation.
Qed.

Lemma fixed_notation_amount_syntax (f : nat) (s : string) :
  fixed_notation f s -> amount_syntax s.
Proof.
  intros (i & d & -> & _ & Hi & _ & Hd). exists i, d. repeat split; auto.
Qed.

(** For an amount that parses to a number greater than 0 and two prices
    greater than 0, when the quotient is below [10^21], what
    [calculateExchange] returns is a run of digits, a point and 6 digits,
    which the amount mask accepts. *)
Theorem calculateExchange_fixed_notation (amount : string) (f t : SwapForm.Token) :
  Number.gt (Number.parseFloat amount) 0%float = true ->
  Number.gt (SwapForm.token_price f) 0%float = true ->
  Number.gt (SwapForm.token_price t) 0%float = true ->
  Number.gt 1e21%float
    (PrimFloat.div
       (PrimFloat.mul (Number.parseFloat amount) (SwapForm.token_price f))
       (SwapForm.token_price t)) = true ->
  fixed_notation 6 (SwapForm.calculateExchange amount (Some f) (Some t)) /\
  CurrencyInput.test CurrencyInput.amountPattern
    (SwapForm.calculateExchange amount (Some f) (Some t)) = true.
Proof.
  intros Ha Hf Ht Hbig.
  assert (N : fixed_notation 6 (SwapForm.calculateExchange amount (Some f) (Some t))).
  { unfold SwapForm.calculateExchange.
    pose proof (parseFloat_gt_nonempty _ Ha) as Hne. apply String.eqb_neq in Hne.
    rewrite Hne, (gt_zero_truthy _ Hf), (gt_zero_truthy _ Ht). simpl.
    rewrite gt_zero_negb in Ha. apply negb_true_iff in Ha. rewrite Ha.
    apply toFixed_notation_unsigned; [discriminate| |exact Hbig].
    rewrite div_spec, mul_spec.
    apply SFdiv_unsigned; [apply SFmul_unsigned|]; apply gt_zero_unsigned;
      try assumption.
    rewrite gt_zero_negb. now apply negb_true_iff. }
  split; [exact N|].
  now apply test_matches, amountPattern_syntax, fixed_notation_amount_syntax with 6%nat.
Qed.

Lemma calculateExchange_fixed_notation_witness :
  fixed_notation 6
    (SwapForm.calculateExchange "10"
       (Some (SwapForm.mkToken "USDC" 2%float))
       (Some (SwapForm.mkToken "SWTH" 4%float))) /\
  CurrencyInput.test CurrencyInput.amountPattern
    (SwapForm.calculateExchange "10"
       (Some (SwapForm.mkToken "USDC" 2%float))
       (Some (SwapForm.mkToken "SWTH" 4%float))) = true.
Proof.
  apply (calculateExchange_fixed_notation "10"
           (SwapForm.mkToken "USDC" 2%float) (SwapForm.mkToken "SWTH" 4%float));
    reflexivity.
Defined.

(** ** The handlers of the form *)

Lemma handleFromAmountChange_converted (value : string) (st : SwapForm.State) :
  converted (SwapForm.handleFromAmountChange value st).
Proof.
  unfold converted, SwapForm.handleFromAmountChange, SwapForm.calculateExchange. simpl.
  destruct (String.eqb_spec value "") as [->|_]; simpl;
    destruct (SwapForm.fromToken st), (SwapForm.toToken st); reflexivity.
Qed.



(** Choosing a token puts it on its side; when it has the other side's
    currency the other side receives the token this side had, and otherwise
    the other side keeps its token; two sides that are on different
    currencies stay on different currencies after a token change, and a
    token whose currency is not the other side's leaves them on different
    currencies whatever they were on before; swapping the sides changes
    nothing to that. *)
Theorem sides_stay_distinct :
  (forall (token : SwapForm.Token) (st : SwapForm.State),
     SwapForm.fromToken (SwapFormView.handleFromTokenChange token st) = Some token /\
     (SwapFormView.sameCurrency token (SwapForm.toToken st) = true ->
      SwapForm.toToken (SwapFormView.handleFromTokenChange token st)
      = SwapForm.fromToken st) /\
     (SwapFormView.sameCurrency token (SwapForm.toToken st) = false ->
      SwapForm.toToken (SwapFormView.handleFromTokenChange token st)
      = SwapForm.toToken st /\
      distinct_sides (SwapFormView.handleFromTokenChange token st))) /\
  (forall (token : SwapForm.Token) (st : SwapForm.State),
     SwapForm.toToken (SwapFormView.handleToTokenChange token st) = Some token /\
     (SwapFormView.sameCurrency token (SwapForm.fromToken st) = true ->
      SwapForm.fromToken (SwapFormView.handleToTokenChange token st)
      = SwapForm.toToken st) /\
     (SwapFormView.sameCurrency token (SwapForm.fromToken st) = false ->
      SwapForm.fromToken (SwapFormView.handleToTokenChange token st)
      = SwapForm.fromToken st /\
      distinct_sides (SwapFormView.handleToTokenChange token st))) /\
  (forall (token : SwapForm.Token) (st : SwapForm.State),
     distinct_sides st ->
     distinct_sides (SwapFormView.handleFromTokenChange token st) /\
     distinct_sides (SwapFormView.handleToTokenChange token st)) /\
  (forall c : SwapFormView.Component,
     distinct_sides (SwapFormView.form (SwapFormView.handleSwapTokens c)) <->
     distinct_sides (SwapFormView.form c)).
Proof.
  split; [|split; [|split]].
  - intros token st. split; [reflexivity|]. split.
    + intros H. unfold SwapFormView.handleFromTokenChange. simpl. now rewrite H.
    + intros H. unfold distinct_sides, SwapFormView.handleFromTokenChange. simpl.
      rewrite H. split; [reflexivity|].
      intros f t [= <-] Ht. rewrite Ht in H. simpl in H.
      now apply String.eqb_neq.
  - intros token st. split; [reflexivity|]. split.
    + intros H. unfold SwapFormView.handleToTokenChange. simpl. now rewrite H.
    + intros H. unfold distinct_sides, SwapFormView.handleToTokenChange. simpl.
      rewrite H. split; [reflexivity|].
      intros f t Hf [= <-]. rewrite Hf in H. simpl in H.
      apply String.eqb_neq in H. congruence.
  - intros token st D. split.
    + unfold distinct_sides, SwapFormView.handleFromTokenChange. simpl.
      intros f t [= <-] Ht.
      destruct (SwapForm.toToken st) as [t0|] eqn:E; simpl in Ht.
      * destruct (String.eqb_spec (SwapForm.token_currency token)
                    (SwapForm.token_currency t0)) as [Ec|Ec].
        -- rewrite Ec. intros Eq. now apply (D t t0 Ht E).
        -- now injection Ht as <-.
      * discriminate Ht.
    + unfold distinct_sides, SwapFormView.handleToTokenChange. simpl.
      intros f t Hf [= <-].
      destruct (SwapForm.fromToken st) as [f0|] eqn:E; simpl in Hf.
      * destruct (String.eqb_spec (SwapForm.token_currency token)
                    (SwapForm.token_currency f0)) as [Ec|Ec].
        -- rewrite Ec. intros Eq. now apply (D f0 f E Hf).
        -- injection Hf as <-. intros Eq. now apply Ec.
      * discriminate Hf.
  - intros c. unfold distinct_sides, SwapFormView.handleSwapTokens. simpl. split.
    + intros D f t Hf Ht Eq. now apply (D t f Ht Hf).
    + intros D f t Hf Ht Eq. now apply (D t f Ht Hf).
Qed.

Lemma sides_stay_distinct_witness :
  distinct_sides
    (SwapFormView.handleFromTokenChange (SwapForm.mkToken "SWTH" 0.5%float)
       (SwapForm.mkState (Some (SwapForm.mkToken "USDC" 1%float))
          (Some (SwapForm.mkToken "SWTH" 0.5%float)) "" "" "")) /\
  distinct_sides
    (SwapFormView.handleToTokenChange (SwapForm.mkToken "SWTH" 0.5%float)
       (SwapForm.mkState (Some (SwapForm.mkToken "USDC" 1%float))
          (Some (SwapForm.mkToken "SWTH" 0.5%float)) "" "" "")).
Proof.
  apply (proj1 (proj2 (proj2 sides_stay_distinct))
           (SwapForm.mkToken "SWTH" 0.5%float)
           (SwapForm.mkState (Some (SwapForm.mkToken "USDC" 1%float))
              (Some (SwapForm.mkToken "SWTH" 0.5%float)) "" "" "")).
  intros f t [= <-] [= <-]. discriminate.
Defined.

(** Swapping the sides exchanges the tokens and the amounts and leaves the
    rest; doing it twice gives the form back; and the timer writes the
    tokens and the amounts that were on the form when the swap was asked
    for, whatever was chosen or entered since: of what the form shows when
    the timer fires only the error message is left. *)
Theorem handleSwapTokens_involution :
  (forall c : SwapFormView.Component,
     let st := SwapFormView.form c in
     let st' := SwapFormView.form (SwapFormView.handleSwapTokens c) in
     SwapForm.fromToken st' = SwapForm.toToken st /\
     SwapForm.toToken st' = SwapForm.fromToken st /\
     SwapForm.fromAmount st' = SwapForm.toAmount st /\
     SwapForm.toAmount st' = SwapForm.fromAmount st /\
     SwapForm.error st' = SwapForm.error st) /\
  (forall c : SwapFormView.Component,
     SwapFormView.swapAnimation c = false ->
     SwapFormView.handleSwapTokens (SwapFormView.handleSwapTokens c) = c) /\
  (forall (captured entered : SwapForm.State) (c : SwapFormView.Component),
     let c' := SwapFormView.mkComponent (SwapFormView.tokens c) (SwapFormView.loading c)
                 entered true in
     SwapFormView.handleSwapTokens_timeout captured c'
     = SwapFormView.mkComponent (SwapFormView.tokens c) (SwapFormView.loading c)
         (SwapForm.mkState (SwapForm.toToken captured) (SwapForm.fromToken captured)
            (SwapForm.toAmount captured) (SwapForm.fromAmount captured)
            (SwapForm.error entered))
         false).
Proof.
  split; [|split].
  - intros c. cbv zeta. repeat split.
  - intros [tokens loading [f t fa ta e] anim] H. simpl in H. subst anim. reflexivity.
  - intros captured entered c. reflexivity.
Qed.

Lemma handleSwapTokens_involution_witness :
  SwapFormView.handleSwapTokens
    (SwapFormView.handleSwapTokens
       (SwapFormView.mkComponent [] false
          (SwapForm.mkState (Some (SwapForm.mkToken "USDC" 1%float)) None "3" "" "")
          false))
  = SwapFormView.mkComponent [] false
      (SwapForm.mkState (Some (SwapForm.mkToken "USDC" 1%float)) None "3" "" "")
      false.
Proof.
  apply (proj1 (proj2 handleSwapTokens_involution)). reflexivity.
Defined.

(** [handleSwap] alerts and clears both amounts and the error, keeping the
    tokens, exactly when the From amount is non-empty, does not parse to a
    number [<= 0] and both tokens are selected; otherwise it alerts nothing,
    sets an error message and leaves amounts and tokens as they are. A From
    amount that parses to NaN is not turned away. When the To amount is a
    non-empty conversion of the From amount, as it is whenever the Swap
    button is enabled on such a form, the swap goes through. *)
Theorem handleSwap_outcome :
  (forall st : SwapForm.State,
     snd (SwapFormView.handleSwap st) <> None <->
     SwapForm.fromAmount st <> "" /\
     Number.le (Number.parseFloat (SwapForm.fromAmount st)) 0%float = false /\
     SwapForm.fromToken st <> None /\ SwapForm.toToken st <> None) /\
  (forall st : SwapForm.State,
     snd (SwapFormView.handleSwap st) <> None ->
     fst (SwapFormView.handleSwap st)
     = SwapForm.mkState (SwapForm.fromToken st) (SwapForm.toToken st) "" "" "") /\
  (forall st : SwapForm.State,
     snd (SwapFormView.handleSwap st) = None ->
     let st' := fst (SwapFormView.handleSwap st) in
     SwapForm.error st' <> "" /\
     SwapForm.fromAmount st' = SwapForm.fromAmount st /\
     SwapForm.toAmount st' = SwapForm.toAmount st /\
     SwapForm.fromToken st' = SwapForm.fromToken st /\
     SwapForm.toToken st' = SwapForm.toToken st) /\
  (forall st : SwapForm.State,
     SwapForm.fromAmount st <> "" ->
     Number.isNaN (Number.parseFloat (SwapForm.fromAmount st)) = true ->
     SwapForm.fromToken st <> None -> SwapForm.toToken st <> None ->
     snd (SwapFormView.handleSwap st) <> None) /\
  (forall st : SwapForm.State,
     converted st -> SwapForm.toAmount st <> "" ->
     snd (SwapFormView.handleSwap st) <> None) /\
  (forall c : SwapFormView.Component,
     SwapFormView.swapDisabled c = false -> converted (SwapFormView.form c) ->
     snd (SwapFormView.handleSwap (SwapFormView.form c)) <> None).
Proof.
  assert (main : forall st : SwapForm.State,
     snd (SwapFormView.handleSwap st) <> None <->
     SwapForm.fromAmount st <> "" /\
     Number.le (Number.parseFloat (SwapForm.fromAmount st)) 0%float = false /\
     SwapForm.fromToken st <> None /\ SwapForm.toToken st <> None).
  { intros st. unfold SwapFormView.handleSwap.
    destruct (String.eqb_spec (SwapForm.fromAmount st) "") as [E|E]; simpl.
    { split; [intros H; now contradiction H|intros (H & _); now contradiction H]. }
    destruct (Number.le _ _); simpl.
    { split; [intros H; now contradiction H|intros (_ & H & _); discriminate H]. }
    destruct (SwapForm.fromToken st), (SwapForm.toToken st); simpl.
    - split; [intros _|discriminate]. now repeat split.
    - split; [intros H; now contradiction H|intros (_ & _ & _ & H); now contradiction H].
    - split; [intros H; now contradiction H|intros (_ & _ & H & _); now contradiction H].
    - split; [intros H; now contradiction H|intros (_ & _ & H & _); now contradiction H]. }
  assert (through : forall st : SwapForm.State,
     converted st -> SwapForm.toAmount st <> "" ->
     snd (SwapFormView.handleSwap st) <> None).
  { intros st Hc Hne. unfold converted in Hc. rewrite Hc in Hne.
    apply calculateExchange_nonempty_iff in Hne.
    destruct Hne as (Ha & Hg & f & t & Ef & Et & _).
    apply main. split; [exact Ha|]. rewrite Ef, Et.
    split; [|split; discriminate].
    rewrite gt_zero_negb in Hg. apply negb_true_iff, orb_false_iff in Hg. apply Hg. }
  split; [exact main|]. split; [|split; [|split; [|split]]].
  - intros st H. apply main in H. destruct H as (Ha & Hl & Hf & Ht).
    unfold SwapFormView.handleSwap. apply String.eqb_neq in Ha. rewrite Ha, Hl. simpl.
    destruct (SwapForm.fromToken st), (SwapForm.toToken st); try reflexivity;
      now contradiction.
  - intros st. cbv zeta. unfold SwapFormView.handleSwap.
    destruct (String.eqb _ _ || Number.le _ _); simpl; [now repeat split|].
    destruct (SwapForm.fromToken st), (SwapForm.toToken st); simpl;
      intros H; try discriminate H; now repeat split.
  - intros st Ha Hn Hf Ht. apply main. repeat split; try assumption.
    unfold Number.isNaN, PrimFloat.is_nan in Hn. unfold Number.le.
    rewrite FloatAxioms.eqb_spec in Hn. rewrite leb_spec.
    destruct (Prim2SF (Number.parseFloat (SwapForm.fromAmount st))) as [s|s| |s m e];
      try reflexivity; simpl in Hn.
    + discriminate Hn.
    + destruct s; discriminate Hn.
    + rewrite SFeqb_refl_finite in Hn. discriminate Hn.
  - exact through.
  - intros c Hd Hc. apply through; [exact Hc|].
    unfold SwapFormView.swapDisabled in Hd.
    apply orb_false_iff in Hd. destruct Hd as [Hd _].
    apply orb_false_iff in Hd. destruct Hd as [_ Hd].
    now apply String.eqb_neq.
Qed.

Lemma handleSwap_outcome_witness :
  snd (SwapFormView.handleSwap
         (SwapForm.handleFromAmountChange "3"
            (SwapForm.mkState (Some (SwapForm.mkToken "USDC" 1%float))
               (Some (SwapForm.mkToken "SWTH" 0.5%float)) "" "" ""))) <> None.
Proof.
  apply (proj1 (proj2 (proj2 (proj2 (proj2 handleSwap_outcome))))).
  - apply handleFromAmountChange_converted.
  - vm_compute. discriminate.
Defined.

(** ** Loading the tokens *)

Lemma findCurrency_Some (c : string) (l : list SwapForm.Token) (t : SwapForm.Token) :
  SwapFormView.findCurrency c l = Some t -> In t l /\ SwapForm.token_currency t = c.
Proof.
  unfold SwapFormView.findCurrency. intros H. apply List.find_some in H.
  destruct H as [Hi He]. split; [exact Hi|]. now apply String.eqb_eq.
Qed.

Lemma findCurrency_None (c : string) (l : list SwapForm.Token) :
  SwapFormView.findCurrency c l = None -> ~ In c (map SwapForm.token_currency l).
Proof.
  unfold SwapFormView.findCurrency. intros H Hin.
  apply List.in_map_iff in Hin. destruct Hin as (t & <- & Ht).
  apply (List.find_none _ _ H) in Ht. simpl in Ht. now rewrite String.eqb_refl in Ht.
Qed.

Lemma findCurrency_listed (c : string) (l : list SwapForm.Token) :
  In c (map SwapForm.token_currency l) ->
  exists t, SwapFormView.findCurrency c l = Some t.
Proof.
  intros H. destruct (SwapFormView.findCurrency c l) as [t|] eqn:E.
  - now exists t.
  - now apply findCurrency_None in E.
Qed.

Lemma NoDup_map_In_inj {A B : Type} (f : A -> B) (l : list A) (a b : A) :
  List.NoDup (map f l) -> In a l -> In b l -> f a = f b -> a = b.
Proof.
  induction l as [|x l IH]; simpl; intros ND Ha Hb E; [contradiction|].
  inversion ND as [|? ? Hx ND']; subst.
  destruct Ha as [->|Ha], Hb as [->|Hb].
  - reflexivity.
  - exfalso. apply Hx. rewrite E. now apply List.in_map.
  - exfalso. apply Hx. rewrite <- E. now apply List.in_map.
  - now apply IH.
Qed.

Lemma fetchPrices_NoDup (localeCompare : string -> string -> Z)
    (data : list SwapForm.Item) :
  List.NoDup (map SwapForm.token_currency (SwapForm.fetchPrices localeCompare data)).
Proof.
  apply (Permutation.Permutation_NoDup
           (Permutation_sym (fetchPrices_currencies localeCompare data))).
  apply collect_NoDup.
Qed.

(** Once the prices are loaded the component is no longer loading and
    lists the tokens of [fetchPrices]. With fewer than two tokens the form
    is untouched. With two or more, both sides get a listed token: From is
    USDC when USDC is listed and To is SWTH when SWTH is listed, otherwise
    they are the first and the second token; the sides are on different
    currencies when USDC and SWTH are both listed or both missing, but when
    USDC is listed, SWTH is not and USDC is the second token, both sides
    are USDC. A failed load only stops the loading and sets the error. *)
Theorem fetched_defaults :
  forall (localeCompare : string -> string -> Z) (data : list SwapForm.Item)
         (c : SwapFormView.Component),
    let c' := SwapFormView.fetched localeCompare (SwapFormView.Prices data) c in
    let listed := SwapForm.fetchPrices localeCompare data in
    let currencies := map SwapForm.token_currency listed in
    SwapFormView.loading c' = false /\
    SwapFormView.tokens c' = listed /\
    SwapForm.fromAmount (SwapFormView.form c') = SwapForm.fromAmount (SwapFormView.form c) /\
    SwapForm.toAmount (SwapFormView.form c') = SwapForm.toAmount (SwapFormView.form c) /\
    ((length listed < 2)%nat -> SwapFormView.form c' = SwapFormView.form c) /\
    ((2 <= length listed)%nat ->
     exists f t,
       SwapForm.fromToken (SwapFormView.form c') = Some f /\
       SwapForm.toToken (SwapFormView.form c') = Some t /\
       In f listed /\ In t listed /\
       (In "USDC" currencies -> SwapForm.token_currency f = "USDC") /\
       (In "SWTH" currencies -> SwapForm.token_currency t = "SWTH") /\
       (~ In "USDC" currencies -> nth_error listed 0 = Some f) /\
       (~ In "SWTH" currencies -> nth_error listed 1 = Some t) /\
       ((In "USDC" currencies <-> In "SWTH" currencies) ->
        SwapForm.token_currency f <> SwapForm.token_currency t) /\
       (In "USDC" currencies -> ~ In "SWTH" currencies ->
        nth_error currencies 1 = Some "USDC" -> f = t)) /\
    (let failed := SwapFormView.fetched localeCompare SwapFormView.Failure c in
     SwapFormView.loading failed = false /\
     SwapFormView.tokens failed = SwapFormView.tokens c /\
     SwapForm.error (SwapFormView.form failed) <> "" /\
     SwapForm.fromToken (SwapFormView.form failed) = SwapForm.fromToken (SwapFormView.form c) /\
     SwapForm.toToken (SwapFormView.form failed) = SwapForm.toToken (SwapFormView.form c)).
Proof.
  intros localeCompare data c. cbv zeta.
  pose proof (fetchPrices_NoDup localeCompare data) as ND.
  unfold SwapFormView.fetched.
  set (listed := SwapForm.fetchPrices localeCompare data) in *.
  cbn [SwapFormView.form SwapFormView.loading SwapFormView.tokens].
  split; [reflexivity|]. split; [reflexivity|].
  split; [now destruct (2 <=? length listed)%nat|].
  split; [now destruct (2 <=? length listed)%nat|].
  split; [|split; [|cbn; repeat split; discriminate]].
  { intros H. apply Nat.leb_gt in H. now rewrite H. }
  intros H. apply Nat.leb_le in H as Hb. rewrite Hb.
  cbn [SwapForm.fromToken SwapForm.toToken].
  clearbody listed. clear Hb.
  destruct listed as [|t0 [|t1 rest]]; simpl in H; try lia.
  cbn [nth_error].
  assert (D01 : SwapForm.token_currency t0 <> SwapForm.token_currency t1).
  { simpl in ND. inversion ND as [|? ? Hx _]; subst. intros E. apply Hx. now left. }
  unfold SwapFormView.orElse.
  destruct (SwapFormView.findCurrency "USDC" (t0 :: t1 :: rest)) as [u|] eqn:EU;
    destruct (SwapFormView.findCurrency "SWTH" (t0 :: t1 :: rest)) as [w|] eqn:EW.
  - apply findCurrency_Some in EU, EW. destruct EU as [Iu Cu], EW as [Iw Cw].
    assert (InU : In "USDC" (map SwapForm.token_currency (t0 :: t1 :: rest)))
      by (rewrite <- Cu; now apply List.in_map).
    assert (InW : In "SWTH" (map SwapForm.token_currency (t0 :: t1 :: rest)))
      by (rewrite <- Cw; now apply List.in_map).
    exists u, w.
    split; [reflexivity|]. split; [reflexivity|].
    split; [exact Iu|]. split; [exact Iw|].
    split; [intros _; exact Cu|]. split; [intros _; exact Cw|].
    split; [intros N; now contradiction N|].
    split; [intros N; now contradiction N|].
    split; [intros _; rewrite Cu, Cw; discriminate|].
    intros _ N. now contradiction N.
  - apply findCurrency_Some in EU. destruct EU as [Iu Cu].
    apply findCurrency_None in EW.
    assert (InU : In "USDC" (map SwapForm.token_currency (t0 :: t1 :: rest)))
      by (rewrite <- Cu; now apply List.in_map).
    exists u, t1.
    split; [reflexivity|]. split; [reflexivity|].
    split; [exact Iu|]. split; [simpl; tauto|].
    split; [intros _; exact Cu|]. split; [intros N; now contradiction EW|].
    split; [intros N; now contradiction N|].
    split; [intros _; reflexivity|].
    split; [intros [F _]; exfalso; exact (EW (F InU))|].
    intros _ _ N. cbn in N. injection N as N.
    apply (NoDup_map_In_inj SwapForm.token_currency (t0 :: t1 :: rest));
      [exact ND|exact Iu|simpl; tauto|congruence].
  - apply findCurrency_Some in EW. destruct EW as [Iw Cw].
    apply findCurrency_None in EU.
    assert (InW : In "SWTH" (map SwapForm.token_currency (t0 :: t1 :: rest)))
      by (rewrite <- Cw; now apply List.in_map).
    exists t0, w.
    split; [reflexivity|]. split; [reflexivity|].
    split; [simpl; tauto|]. split; [exact Iw|].
    split; [intros N; now contradiction EU|]. split; [intros _; exact Cw|].
    split; [intros _; reflexivity|].
    split; [intros N; now contradiction N|].
    split; [intros [_ F]; exfalso; exact (EU (F InW))|].
    intros N. now contradiction EU.
  - apply findCurrency_None in EU, EW.
    exists t0, t1.
    split; [reflexivity|]. split; [reflexivity|].
    split; [simpl; tauto|]. split; [simpl; tauto|].
    split; [intros N; now contradiction EU|].
    split; [intros N; now contradiction EW|].
    split; [intros _; reflexivity|]. split; [intros _; reflexivity|].
    split; [intros _; exact D01|].
    intros N. now contradiction EU.
Qed.

Lemma fetched_defaults_witness :
  exists f t,
    SwapForm.fromToken (SwapFormView.form
      (SwapFormView.fetched (fun _ _ => 0)
         (SwapFormView.Prices
            [SwapForm.mkItem "ATOM" "7.5" (Some 1); SwapForm.mkItem "USDC" "1" (Some 1)])
         (SwapFormView.mkComponent [] true (SwapForm.mkState None None "" "" "") false)))
    = Some f /\
    SwapForm.toToken (SwapFormView.form
      (SwapFormView.fetched (fun _ _ => 0)
         (SwapFormView.Prices
            [SwapForm.mkItem "ATOM" "7.5" (Some 1); SwapForm.mkItem "USDC" "1" (Some 1)])
         (SwapFormView.mkComponent [] true (SwapForm.mkState None None "" "" "") false)))
    = Some t /\
    f = t.
Proof.
  destruct (proj1 (proj2 (proj2 (proj2 (proj2 (proj2
              (fetched_defaults (fun _ _ => 0)
                 [SwapForm.mkItem "ATOM" "7.5" (Some 1); SwapForm.mkItem "USDC" "1" (Some 1)]
                 (SwapFormView.mkComponent [] true
                    (SwapForm.mkState None None "" "" "") false))))))))
    as (f & t & Hf & Ht & _ & _ & _ & _ & _ & _ & _ & Hsame).
  - vm_compute. lia.
  - exists f, t. split; [exact Hf|]. split; [exact Ht|].
    apply Hsame.
    + vm_compute. right. left. reflexivity.
    + vm_compute. intros [H|[H|[]]]; discriminate H.
    + vm_compute. reflexivity.
Defined.

(** The tokens come out of [fetchPrices] in the order of [localeCompare],
    each currency once, when [localeCompare] is total and transitive. *)
Theorem fetchPrices_sorted (localeCompare : string -> string -> Z)
    (data : list SwapForm.Item) :
  (forall a b, localeCompare a b <= 0 \/ localeCompare b a <= 0) ->
  (forall a b c, localeCompare a b <= 0 -> localeCompare b c <= 0 ->
                 localeCompare a c <= 0) ->
  StronglySorted
    (fun a b => localeCompare (SwapForm.token_currency a) (SwapForm.token_currency b) <= 0)
    (SwapForm.fetchPrices localeCompare data) /\
  List.NoDup (map SwapForm.token_currency (SwapForm.fetchPrices localeCompare data)).
Proof.
  intros Htotal Htrans. split; [|apply fetchPrices_NoDup].
  apply (Array_sort_sorted (SwapForm.byCurrency localeCompare)).
  - intros a b. apply Htotal.
  - intros a b c. apply Htrans.
Qed.

Lemma fetchPrices_sorted_witness :
  StronglySorted
    (fun a b => Z.pos (encode (SwapForm.token_currency a))
                - Z.pos (encode (SwapForm.token_currency b)) <= 0)
    (SwapForm.fetchPrices (fun a b => Z.pos (encode a) - Z.pos (encode b))
       [SwapForm.mkItem "USDC" "1" (Some 1); SwapForm.mkItem "ATOM" "7.5" (Some 1)]).
Proof.
  apply (fetchPrices_sorted (fun a b => Z.pos (encode a) - Z.pos (encode b))).
  - intros a b. lia.
  - intros a b c. lia.
Defined.

(** ** The token search *)

Lemma prefix_append (q s : string) :
  String.prefix q s = true <-> exists b, s = q +:+ b.
Proof.
  revert s. induction q as [|c q IH]; intros s.
  - split; [intros _; now exists s|intros _; now destruct s].
  - destruct s as [|c' s]; simpl.
    + split; [discriminate|intros (b & E); discriminate E].
    + destruct (ascii_dec c c') as [->|N].
      * rewrite IH. split; intros (b & E); exists b.
        -- now rewrite E.
        -- now injection E.
      * split; [discriminate|]. intros (b & E). injection E as E1 _.
        now contradiction N.
Qed.

Lemma includes_occurs (s q : string) :
  TokenDropdown.includes s q = true <-> occurs q s.
Proof.
  unfold occurs. induction s as [|c s IH].
  - change (TokenDropdown.includes "" q) with (String.prefix q "" || false).
    rewrite orb_false_r, prefix_append. split.
    + intros (b & E). now exists "", b.
    + intros (a & b & E). destruct a; [now exists b|discriminate E].
  - change (TokenDropdown.includes (String c s) q)
      with (String.prefix q (String c s) || TokenDropdown.includes s q).
    rewrite orb_true_iff, prefix_append, IH. split.
    + intros [(b & E)|(a & b & E)].
      * now exists "", b.
      * exists (String c a), b. simpl. now rewrite E.
    + intros (a & b & E). destruct a as [|c' a].
      * left. now exists b.
      * right. injection E as _ E. now exists a, b.
Qed.

Lemma append_empty_r (s : string) : s +:+ "" = s.
Proof.
  induction s as [|c s IH]; [reflexivity|].
  change (String c s +:+ "") with (String c (s +:+ "")). now rewrite IH.
Qed.

Lemma occurs_refl (s : string) : occurs s s.
Proof.
  exists "", "". change ("" +:+ s +:+ "") with (s +:+ ""). now rewrite append_empty_r.
Qed.

Lemma occurs_empty (s : string) : occurs "" s.
Proof. now exists "", s. Qed.

(** The dropdown lists exactly the tokens whose lower-cased currency
    contains the lower-cased query; a token is found
    under its own currency; and after a token has been chosen the query is
    empty, the dropdown is closed and (the lower-cased empty string being
    empty) every token is listed again. *)
Theorem filteredTokens_search :
  forall (toLowerCase : string -> string) (tokens : list SwapForm.Token),
    (forall (d : TokenDropdown.Dropdown) (t : SwapForm.Token),
       In t (TokenDropdown.filteredTokens toLowerCase tokens d) <->
       In t tokens /\
       occurs (toLowerCase (TokenDropdown.searchQuery d))
              (toLowerCase (SwapForm.token_currency t))) /\
    (forall (open : bool) (t : SwapForm.Token),
       In t tokens ->
       In t (TokenDropdown.filteredTokens toLowerCase tokens
               (TokenDropdown.mkDropdown open (SwapForm.token_currency t)))) /\
    (forall (ParentState : Type) (onTokenChange : SwapForm.Token -> ParentState -> ParentState)
            (token : SwapForm.Token) (st : ParentState * TokenDropdown.Dropdown),
       toLowerCase "" = "" ->
       let st' := TokenDropdown.handleTokenSelect ParentState onTokenChange token st in
       fst st' = onTokenChange token (fst st) /\
       TokenDropdown.isOpen (snd st') = false /\
       TokenDropdown.filteredTokens toLowerCase tokens (snd st') = tokens).
Proof.
  intros toLowerCase tokens. split; [|split].
  - intros d t. unfold TokenDropdown.filteredTokens.
    now rewrite List.filter_In, includes_occurs.
  - intros open t Ht. unfold TokenDropdown.filteredTokens.
    apply List.filter_In. split; [exact Ht|].
    apply includes_occurs, occurs_refl.
  - intros ParentState onTokenChange token st E. cbv zeta.
    split; [reflexivity|]. split; [reflexivity|].
    unfold TokenDropdown.filteredTokens, TokenDropdown.handleTokenSelect. simpl.
    rewrite E. induction tokens as [|t tokens IH]; simpl; [reflexivity|].
    rewrite (proj2 (includes_occurs _ "") (occurs_empty _)). now rewrite IH.
Qed.

Lemma filteredTokens_search_witness :
  In (SwapForm.mkToken "USDC" 1%float)
    (TokenDropdown.filteredTokens (fun s => s)
       [SwapForm.mkToken "ATOM" 7.5%float; SwapForm.mkToken "USDC" 1%float]
       (TokenDropdown.mkDropdown true "USDC")).
Proof.
  apply (proj1 (proj2 (filteredTokens_search (fun s => s)
           [SwapForm.mkToken "ATOM" 7.5%float; SwapForm.mkToken "USDC" 1%float]))
           true (SwapForm.mkToken "USDC" 1%float)).
  right. left. reflexivity.
Defined.

(** ** The keys of the wallet rows *)

Lemma kept_blockchain (b : Wallet.WalletBalance) :
  Wallet.keep (Wallet.rank b) = true ->
  In (Wallet.blockchain b) ["Osmosis"; "Ethereum"; "Arbitrum"; "Zilliqa"; "Neo"].
Proof.
  intros H. unfold Wallet.keep in H. apply andb_true_iff in H.
  destruct H as [H _]. unfold Wallet.rank in H. cbn [Wallet.priority] in H.
  rewrite getPriority_cases in H. simpl.
  revert H. generalize (Wallet.blockchain b). intros k H.
  destruct (String.eqb_spec k "Osmosis") as [E|N1]; [rewrite E; tauto|].
  destruct (String.eqb_spec k "Ethereum") as [E|N2]; [rewrite E; tauto|].
  destruct (String.eqb_spec k "Arbitrum") as [E|N3]; [rewrite E; tauto|].
  destruct (String.eqb_spec k "Zilliqa") as [E|N4]; [rewrite E; tauto|].
  destruct (String.eqb_spec k "Neo") as [E|N5]; [rewrite E; tauto|].
  exfalso. destruct (Object.inherited k); discriminate H.
Qed.

Lemma key_injective (b1 b2 c1 c2 : string) :
  In b1 ["Osmosis"; "Ethereum"; "Arbitrum"; "Zilliqa"; "Neo"] ->
  In b2 ["Osmosis"; "Ethereum"; "Arbitrum"; "Zilliqa"; "Neo"] ->
  b1 +:+ "-" +:+ c1 = b2 +:+ "-" +:+ c2 -> b1 = b2 /\ c1 = c2.
Proof.
  simpl. intros H1 H2.
  destruct H1 as [<-|[<-|[<-|[<-|[<-|[]]]]]], H2 as [<-|[<-|[<-|[<-|[<-|[]]]]]];
    intros E; cbv [String.append] in E; try discriminate E; injection E as <-; now split.
Qed.

Lemma formatted_key (balances : list Wallet.WalletBalance) prices
    (f : Wallet.FormattedWalletBalance) :
  In f (Wallet.formattedBalances balances prices) ->
  exists b, In b balances /\ f = Wallet.format prices (Wallet.rank b) /\
            Wallet.keep (Wallet.rank b) = true.
Proof.
  intros H. apply formattedBalances_In in H. destruct H as (r & -> & Hr & Hk).
  apply Array_sort_In, surviving_In in Hr. destruct Hr as [(b & Hb & ->) _].
  now exists b.
Qed.

Lemma NoDup_map_injective_on {A B : Type} (f : A -> B) (l : list A) :
  (forall a b, In a l -> In b l -> f a = f b -> a = b) ->
  List.NoDup l -> List.NoDup (map f l).
Proof.
  induction l as [|x l IH]; simpl; intros Hinj ND; [constructor|].
  inversion ND as [|? ? Hx ND']; subst. constructor.
  - intros Hin. apply List.in_map_iff in Hin. destruct Hin as (y & E & Hy).
    apply Hx. rewrite (Hinj x y); auto.
  - apply IH; auto.
Qed.

Lemma NoDup_filter_bool {A : Type} (f : A -> bool) (l : list A) :
  List.NoDup l -> List.NoDup (List.filter f l).
Proof.
  induction 1 as [|x l Hx _ IH]; simpl; [constructor|].
  destruct (f x); [|exact IH]. constructor; [|exact IH].
  intros H. apply List.filter_In in H. now apply Hx.
Qed.

(** Two rows of the wallet page with the same key are rows of balances
    with the same blockchain and the same currency; so when no two balances
    share both, no two rows share a key. *)
Theorem row_keys_unique :
  forall (balances : list Wallet.WalletBalance) (prices : gmap string Number.number),
    (forall f1 f2 : Wallet.FormattedWalletBalance,
       In f1 (Wallet.formattedBalances balances prices) ->
       In f2 (Wallet.formattedBalances balances prices) ->
       WalletRows.key (WalletRows.row f1) = WalletRows.key (WalletRows.row f2) ->
       Wallet.blockchain (Wallet.balance (Wallet.ranked f1))
       = Wallet.blockchain (Wallet.balance (Wallet.ranked f2)) /\
       Wallet.currency (Wallet.balance (Wallet.ranked f1))
       = Wallet.currency (Wallet.balance (Wallet.ranked f2))) /\
    (List.NoDup (map (fun b => (Wallet.blockchain b, Wallet.currency b)) balances) ->
     List.NoDup (map WalletRows.key (WalletRows.rows balances prices))).
Proof.
  intros balances prices.
  assert (same : forall f1 f2 : Wallet.FormattedWalletBalance,
            In f1 (Wallet.formattedBalances balances prices) ->
            In f2 (Wallet.formattedBalances balances prices) ->
            WalletRows.key (WalletRows.row f1) = WalletRows.key (WalletRows.row f2) ->
            Wallet.blockchain (Wallet.balance (Wallet.ranked f1))
            = Wallet.blockchain (Wallet.balance (Wallet.ranked f2)) /\
            Wallet.currency (Wallet.balance (Wallet.ranked f1))
            = Wallet.currency (Wallet.balance (Wallet.ranked f2))).
  { intros f1 f2 H1 H2 E.
    destruct (formatted_key _ _ _ H1) as (b1 & _ & -> & K1).
    destruct (formatted_key _ _ _ H2) as (b2 & _ & -> & K2).
    cbn in E |- *. now apply key_injective; [apply kept_blockchain..|]. }
  split; [exact same|].
  intros ND. unfold WalletRows.rows. rewrite List.map_map.
  assert (NB : List.NoDup balances) by now apply NoDup_map_inv_list in ND.
  assert (NF : List.NoDup (Wallet.formattedBalances balances prices)).
  { unfold Wallet.formattedBalances.
    apply (NoDup_map_inv_list Wallet.ranked). rewrite List.map_map. simpl.
    rewrite List.map_id. unfold Wallet.sorted.
    apply (Permutation.Permutation_NoDup
             (Permutation_sym (Array_sort_perm Wallet.byPriority _))).
    unfold Wallet.surviving. apply NoDup_filter_bool.
    apply NoDup_map_injective_on; [|exact NB].
    intros a b _ _ E. now injection E. }
  apply NoDup_map_injective_on; [|exact NF].
  intros f1 f2 H1 H2 E. destruct (same f1 f2 H1 H2 E) as [Eb Ec].
  destruct (formatted_key _ _ _ H1) as (b1 & I1 & -> & _).
  destruct (formatted_key _ _ _ H2) as (b2 & I2 & -> & _).
  cbn in Eb, Ec.
  assert (b1 = b2) as ->; [|reflexivity].
  apply (NoDup_map_In_inj (fun b => (Wallet.blockchain b, Wallet.currency b)) balances);
    [exact ND|exact I1|exact I2|congruence].
Qed.

Lemma row_keys_unique_witness :
  List.NoDup
    (map WalletRows.key
       (WalletRows.rows
          [Wallet.mkBalance "ETH" 1%float "Ethereum";
           Wallet.mkBalance "ETH" 2%float "Arbitrum";
           Wallet.mkBalance "USDC" 3%float "Ethereum"] ∅)).
Proof.
  apply (proj2 (row_keys_unique
           [Wallet.mkBalance "ETH" 1%float "Ethereum";
            Wallet.mkBalance "ETH" 2%float "Arbitrum";
            Wallet.mkBalance "USDC" 3%float "Ethereum"] ∅)).
  repeat constructor; simpl; intros H;
    repeat (destruct H as [H|H]; [discriminate H|]); exact H.
Defined.

(** ** The order of the balances *)

(** When no two surviving balances have the same priority, the output of
    [formattedBalances] does not depend on the order of the balances. *)
Theorem formattedBalances_order_independent
    (balances balances' : list Wallet.WalletBalance)
    (prices : gmap string Number.number) :
  List.NoDup (map Wallet.priority (Wallet.surviving balances)) ->
  Permutation balances balances' ->
  Wallet.formattedBalances balances prices = Wallet.formattedBalances balances' prices.
Proof.
  intros ND HP. unfold Wallet.formattedBalances. f_equal. unfold Wallet.sorted.
  assert (PS : Permutation (Wallet.surviving balances) (Wallet.surviving balances'))
    by (unfold Wallet.surviving;
        apply filter_Permutation_bool, Permutation_map, HP).
  apply (sorted_perm_unique Wallet.byPriority).
  - apply sorted_before.
  - apply sorted_before.
  - now rewrite !Array_sort_perm.
  - intros a b Ha Hb Hab Hba. apply Array_sort_In in Ha, Hb.
    apply (NoDup_map_In_inj Wallet.priority (Wallet.surviving balances));
      try assumption.
    destruct (surviving_number _ _ Ha) as (x & Ea).
    destruct (surviving_number _ _ Hb) as (y & Eb).
    apply (before_numbers a b x y Ea Eb) in Hab.
    apply (before_numbers b a y x Eb Ea) in Hba.
    rewrite Ea, Eb. f_equal. lia.
Qed.

Lemma formattedBalances_order_independent_witness :
  Wallet.formattedBalances
    [Wallet.mkBalance "ETH" 1%float "Ethereum"; Wallet.mkBalance "OSMO" 2%float "Osmosis"] ∅
  = Wallet.formattedBalances
      [Wallet.mkBalance "OSMO" 2%float "Osmosis"; Wallet.mkBalance "ETH" 1%float "Ethereum"] ∅.
Proof.
  apply formattedBalances_order_independent.
  - vm_compute. repeat constructor; simpl; intros H;
      repeat (destruct H as [H|H]; [discriminate H|]); exact H.
  - apply perm_swap.
Defined.

(** ** Observations delivered again *)

Lemma record_seen (data : list SwapForm.Item) (x : SwapForm.Item) :
  In x data -> SwapForm.record (SwapForm.collect data) x = SwapForm.collect data.
Proof.
  intros Hx. rewrite record_cases.
  destruct (SwapForm.usable x) eqn:Ux; [|reflexivity].
  destruct (Object.inherited (SwapForm.currency x)) eqn:I.
  - destruct (SwapForm.get (SwapForm.currency x) (SwapForm.collect data))
      as [s|] eqn:G; [|reflexivity].
    apply collect_own in G. congruence.
  - destruct (canonical_exists data x Hx Ux I) as (v & Hv & Ec).
    unfold canonical in Hv. rewrite Ec in Hv. rewrite Hv.
    destruct (canonical_freshest data v) as (_ & _ & Hl).
    { unfold canonical. now rewrite Ec. }
    now rewrite (Hl x Hx Ux (eq_sym Ec)).
Qed.

(** Observations that the feed already contains change nothing when they
    are delivered again after it: [priceMap] and the tokens are the same. *)
Theorem redelivery_changes_nothing
    (localeCompare : string -> string -> Z) (data again : list SwapForm.Item) :
  (forall x, In x again -> In x data) ->
  SwapForm.collect (data ++ again) = SwapForm.collect data /\
  SwapForm.fetchPrices localeCompare (data ++ again)
  = SwapForm.fetchPrices localeCompare data.
Proof.
  intros H.
  assert (E : SwapForm.collect (data ++ again) = SwapForm.collect data).
  { induction again as [|x again IH] using rev_ind.
    - now rewrite List.app_nil_r.
    - rewrite List.app_assoc, collect_snoc, IH.
      + apply record_seen, H, List.in_or_app. right. now left.
      + intros y Hy. apply H, List.in_or_app. now left. }
  split; [exact E|]. unfold SwapForm.fetchPrices. now rewrite E.
Qed.

Lemma redelivery_changes_nothing_witness :
  SwapForm.collect
    ([SwapForm.mkItem "ETH" "1645.5" (Some 2); SwapForm.mkItem "ETH" "1650" (Some 2)]
     ++ [SwapForm.mkItem "ETH" "1650" (Some 2)])
  = SwapForm.collect
      [SwapForm.mkItem "ETH" "1645.5" (Some 2); SwapForm.mkItem "ETH" "1650" (Some 2)] /\
  SwapForm.fetchPrices (fun _ _ => 0)
    ([SwapForm.mkItem "ETH" "1645.5" (Some 2); SwapForm.mkItem "ETH" "1650" (Some 2)]
     ++ [SwapForm.mkItem "ETH" "1650" (Some 2)])
  = SwapForm.fetchPrices (fun _ _ => 0)
      [SwapForm.mkItem "ETH" "1645.5" (Some 2); SwapForm.mkItem "ETH" "1650" (Some 2)].
Proof.
  apply redelivery_changes_nothing.
  intros x [<-|[]]. right. left. reflexivity.
Defined.
